(** * The time-based media processing thread

    A shallow embedding of [MediaProcessorThread_TimeBased] of
    [object_detection_inference_engine.py]: the capture loop with its
    time-based sampling, the per-label alert suppression, the camera
    reconnection branch and the end-of-session report.

    Conventions of the embedding.
    - Python floats (the readings of [time.perf_counter], intervals and
      ratios) are exact rationals [Q]; comparisons are [Qle_bool]. The
      rounding of float arithmetic is not modelled; the conversion of an
      int that no float can hold is ([int_too_large]).
    - Python ints (fps, counters) are [Z].
    - The dict [violation_last_alert_time] is a [gmap string Q] and the set
      [detected_violation_types] a [gset string]; the order in which a set
      is iterated is left to the interpreter ([iteration_order]).
    - What the thread does to the outside world (Qt signals, the capture
      handle, [time.sleep], the printed report) is recorded, in order, as a
      list of [Effect]s.
    - What the outside world does to the thread during one loop iteration
      (the result of [read], the clock, the answer of the detector, calls
      made by the GUI thread) is the [Tick] the iteration consumes. *)

From Stdlib Require Import ZArith QArith Lqa Lia List Ascii String.
From stdpp Require Import base option gmap strings list.
Import ListNotations.

Local Open Scope string_scope.
Local Open Scope Z_scope.
Local Open Scope list_scope.

(** [x < y] on floats, as a boolean. *)
Definition Qlt_bool (x y : Q) : bool := negb (Qle_bool y x).

(** ** Data *)

(** [media_source] is either a device index (a Python [int]) or a path (a
    Python [str]); [run] tells them apart with [isinstance]. *)
Inductive MediaSource : Type :=
| Camera (index : Z)
| VideoFile (path : string).

Definition isinstance_int (m : MediaSource) : bool :=
  match m with Camera _ => true | VideoFile _ => false end.

Definition isinstance_str (m : MediaSource) : bool :=
  match m with Camera _ => false | VideoFile _ => true end.

(** A captured frame is identified by a number; its pixels play no part in
    the control flow. *)
Definition Frame : Type := nat.

(** One box of a detection result: [label] is
    [detection_model.names[int(box.cls[0])]]. *)
Record Box : Type := {
  label : string;
  confidence : Q;
  xyxy : Z * Z * Z * Z
}.

(** A box together with the two clock readings taken while it is handled:
    [time.perf_counter()] of line 181 and [time.strftime("%H:%M:%S")] of
    line 195 (read only for a box whose label is a violation). *)
Record Detection : Type := {
  box : Box;
  current_alert_time : Q;
  timestamp : string
}.

(** The pictures handed to the GUI. *)
Inductive Picture : Type :=
| Bgr (f : Frame)                        (* the captured frame *)
| Plot (f : Frame) (boxes : list Box)    (* results[0].plot() *)
| Drawn (f : Frame) (marks : list Box).  (* frame_bgr.copy() with red boxes *)

Inductive Signal : Type :=
| signal_raw_stream (p : Picture)
| signal_sampled_audit_stream (p : Picture)
| signal_object_detection_result_stream (p : Picture)
| signal_error (msg : string)
| signal_violation_image (p : Picture)
| signal_violation_alert (text : string).

(** The lines of the final report that carry data. *)
Record Report : Type := {
  configured_duration : Q;
  actual_duration : Q;
  video_file_duration : option Q;
  total_raw_frames : Z;
  total_sampled_frames : Z;
  frame_drop_ratio : Q;
  termination_reason : string
}.

Inductive Effect : Type :=
| Emit (s : Signal)
| VideoCapture (m : MediaSource)   (* cv2.VideoCapture(media_source) *)
| Release                          (* video_capture.release() *)
| Sleep (seconds : Z)              (* time.sleep *)
| Print (r : Report).

(** The attributes of the thread object. [inference_target_fps] does not
    exist until [update_inference_fps] creates it.

    The last field is not an attribute: [iteration_order T] is the order
    in which the interpreter the thread lives in iterates over the set of
    str [T] (line 236). CPython walks the hash table of the set, so the
    order follows the hashes of the strings, which change with the hash
    seed of the process. It is fixed when the object is built and no
    method assigns it. *)
Record Thread : Type := mkThread {
  media_source : MediaSource;
  target_processing_fps : Z;
  sampling_interval_sec : Q;
  thread_active_status : bool;
  object_detection_enabled : bool;
  last_sample_timestamp : Q;
  raw_frame_count_total : Z;
  sampled_frame_count_total : Z;
  raw_frame_count_1s : Z;
  sampled_frame_count_1s : Z;
  fps_window_start_time : Q;
  validation_start_time : Q;
  validation_duration_sec : Q;
  video_reported_duration_sec : Q;
  video_end_reached : bool;
  actual_processing_duration_sec : Q;
  violation_last_alert_time : gmap string Q;
  violation_suppression_sec : Q;
  detected_violation_types : gset string;
  inference_target_fps : option Z;
  iteration_order : gset string -> list string
}.

(** Attribute assignments. *)
Definition set_sampling_interval_sec (v : Q) (s : Thread) : Thread :=
  let 'mkThread a b _ d e f g h i j k l m n o p q r t u w := s in
  mkThread a b v d e f g h i j k l m n o p q r t u w.

Definition set_thread_active_status (v : bool) (s : Thread) : Thread :=
  let 'mkThread a b c _ e f g h i j k l m n o p q r t u w := s in
  mkThread a b c v e f g h i j k l m n o p q r t u w.

Definition set_object_detection_enabled (v : bool) (s : Thread) : Thread :=
  let 'mkThread a b c d _ f g h i j k l m n o p q r t u w := s in
  mkThread a b c d v f g h i j k l m n o p q r t u w.

Definition set_last_sample_timestamp (v : Q) (s : Thread) : Thread :=
  let 'mkThread a b c d e _ g h i j k l m n o p q r t u w := s in
  mkThread a b c d e v g h i j k l m n o p q r t u w.

Definition set_raw_frame_count_total (v : Z) (s : Thread) : Thread :=
  let 'mkThread a b c d e f _ h i j k l m n o p q r t u w := s in
  mkThread a b c d e f v h i j k l m n o p q r t u w.

Definition set_sampled_frame_count_total (v : Z) (s : Thread) : Thread :=
  let 'mkThread a b c d e f g _ i j k l m n o p q r t u w := s in
  mkThread a b c d e f g v i j k l m n o p q r t u w.

Definition set_raw_frame_count_1s (v : Z) (s : Thread) : Thread :=
  let 'mkThread a b c d e f g h _ j k l m n o p q r t u w := s in
  mkThread a b c d e f g h v j k l m n o p q r t u w.

Definition set_sampled_frame_count_1s (v : Z) (s : Thread) : Thread :=
  let 'mkThread a b c d e f g h i _ k l m n o p q r t u w := s in
  mkThread a b c d e f g h i v k l m n o p q r t u w.

Definition set_fps_window_start_time (v : Q) (s : Thread) : Thread :=
  let 'mkThread a b c d e f g h i j _ l m n o p q r t u w := s in
  mkThread a b c d e f g h i j v l m n o p q r t u w.

Definition set_validation_start_time (v : Q) (s : Thread) : Thread :=
  let 'mkThread a b c d e f g h i j k _ m n o p q r t u w := s in
  mkThread a b c d e f g h i j k v m n o p q r t u w.

Definition set_video_reported_duration_sec (v : Q) (s : Thread) : Thread :=
  let 'mkThread a b c d e f g h i j k l m _ o p q r t u w := s in
  mkThread a b c d e f g h i j k l m v o p q r t u w.

Definition set_video_end_reached (v : bool) (s : Thread) : Thread :=
  let 'mkThread a b c d e f g h i j k l m n _ p q r t u w := s in
  mkThread a b c d e f g h i j k l m n v p q r t u w.

Definition set_actual_processing_duration_sec (v : Q) (s : Thread) : Thread :=
  let 'mkThread a b c d e f g h i j k l m n o _ q r t u w := s in
  mkThread a b c d e f g h i j k l m n o v q r t u w.

Definition set_violation_last_alert_time (v : gmap string Q) (s : Thread)
  : Thread :=
  let 'mkThread a b c d e f g h i j k l m n o p _ r t u w := s in
  mkThread a b c d e f g h i j k l m n o p v r t u w.

Definition set_detected_violation_types (v : gset string) (s : Thread)
  : Thread :=
  let 'mkThread a b c d e f g h i j k l m n o p q r _ u w := s in
  mkThread a b c d e f g h i j k l m n o p q r v u w.

Definition set_inference_target_fps (v : option Z) (s : Thread) : Thread :=
  let 'mkThread a b c d e f g h i j k l m n o p q r t _ w := s in
  mkThread a b c d e f g h i j k l m n o p q r t v w.

(** ** Construction and the public methods *)

(** [float(n)] for an int [n] raises [OverflowError] ("int too large to
    convert to float") when [n], rounded to the nearest double, is beyond
    the largest one, [2^1024 - 2^971]: from [2^1024 - 2^970] on, in
    absolute value. [1.0 / n] converts [n] in this way before it divides. *)
Definition int_too_large (n : Z) : bool :=
  2 ^ 1024 - 2 ^ 970 <=? Z.abs n.

Arguments int_too_large : simpl never.

(** [__init__], in an interpreter that iterates over sets of str in the
    order [order]. [1.0 / target_processing_fps] raises
    [ZeroDivisionError] when the fps is 0 and [OverflowError] when it is
    too large for a float; in both cases no object is built. *)
Definition init (source : MediaSource) (fps : Z) (duration : Q)
    (order : gset string -> list string) : option Thread :=
  if (fps =? 0) || int_too_large fps then None
  else Some {|
    media_source := source;
    target_processing_fps := fps;
    sampling_interval_sec := 1 / inject_Z fps;
    thread_active_status := true;
    object_detection_enabled := false;
    last_sample_timestamp := 0;
    raw_frame_count_total := 0;
    sampled_frame_count_total := 0;
    raw_frame_count_1s := 0;
    sampled_frame_count_1s := 0;
    fps_window_start_time := 0;
    validation_start_time := 0;
    validation_duration_sec := duration;
    video_reported_duration_sec := 0;
    video_end_reached := false;
    actual_processing_duration_sec := 0;
    violation_last_alert_time := ∅;
    violation_suppression_sec := 1;
    detected_violation_types := ∅;
    inference_target_fps := None;
    iteration_order := order
  |}.

(** How a call of a method ends. *)
Inductive Outcome : Type :=
| Returns
| OverflowError.

(** [update_inference_fps]: the object the call leaves and how it ends.
    When [new_fps] is too large for a float, line 87 raises after line 86
    has assigned [inference_target_fps]. *)
Definition update_inference_fps (new_fps : Z) (self : Thread)
  : Thread * Outcome :=
  if 0 <? new_fps then
    let self := set_inference_target_fps (Some new_fps) self in
    if int_too_large new_fps then (self, OverflowError)
    else (set_sampling_interval_sec (1 / inject_Z new_fps) self, Returns)
  else (self, Returns).

Definition toggle_object_detection (activation_state : bool) (self : Thread)
  : Thread :=
  set_object_detection_enabled activation_state self.

Definition terminate_thread (self : Thread) : Thread :=
  set_thread_active_status false self.

(** ** One iteration of the capture loop *)

(** A call made by the GUI thread on the running thread object. An
    exception of [update_inference_fps] is raised in the GUI thread (where
    [handle_fps_adjustment] of [Gui_screens.py] swallows it): the loop sees
    the object the call has left. *)
Inductive Call : Type :=
| call_update_inference_fps (new_fps : Z)
| call_toggle_object_detection (activation_state : bool)
| call_terminate_thread.

Definition apply_call (self : Thread) (c : Call) : Thread :=
  match c with
  | call_update_inference_fps n => (update_inference_fps n self).1
  | call_toggle_object_detection b => toggle_object_detection b self
  | call_terminate_thread => terminate_thread self
  end.

(** What one iteration reads from its surroundings: the calls that arrived
    since the loop condition was last evaluated, the result of
    [video_capture.read()] ([None] for [success = False]), the reading of
    [time.perf_counter()] on line 114, whether a reopened capture
    [isOpened()], and the answer of [detection_model.predict] ([None] when
    the call raises). *)
Record Tick : Type := {
  calls : list Call;
  read : option Frame;
  current_time : Q;
  isOpened : bool;
  predict : option (list (list Detection))
}.

(** How the loop body is left: at its end or through [continue], through
    [break], or through an exception. *)
Inductive Flow : Type := Continue | Break | Raise.

Definition violation_list : list string :=
  ["NO-Mask"; "NO-Hardhat"; "NO-Safety Vest"].

Definition label_in (l : string) (ls : list string) : bool :=
  existsb (String.eqb l) ls.

Definition alert_text (timestamp label : string) : string :=
  ("[" ++ timestamp ++ "] VIOLATION: " ++ label)%string.

(** The state threaded through the two nested [for] loops over the boxes. *)
Record Scan : Type := {
  scan_self : Thread;
  violation_detected_this_frame : bool;
  violation_display_frame : list Box;
  scan_out : list Effect
}.

(** The body of [for box in result.boxes] (lines 161-197). *)
Definition handle_box (acc : Scan) (d : Detection) : Scan :=
  let self := scan_self acc in
  let label := label (box d) in
  if label_in label violation_list then
    let last_time :=
      default 0%Q (violation_last_alert_time self !! label) in
    if Qle_bool (violation_suppression_sec self)
                (current_alert_time d - last_time) then
      {| scan_self :=
           set_detected_violation_types
             ({[label]} ∪ detected_violation_types self)
             (set_violation_last_alert_time
                (<[label := current_alert_time d]>
                   (violation_last_alert_time self)) self);
         violation_detected_this_frame := true;
         violation_display_frame := violation_display_frame acc ++ [box d];
         scan_out :=
           scan_out acc
           ++ [Emit (signal_violation_alert (alert_text (timestamp d) label))]
      |}
    else
      {| scan_self := self;
         violation_detected_this_frame := true;
         violation_display_frame := violation_display_frame acc ++ [box d];
         scan_out := scan_out acc |}
  else acc.

Definition handle_result (acc : Scan) (result : list Detection) : Scan :=
  foldl handle_box acc result.

(** Lines 149-203: the detection branch of a sampled frame. The call of
    [predict] may raise, and so does [results[0]] on an empty list. *)
Definition detect (self : Thread) (frame_bgr : Frame)
    (results : option (list (list Detection)))
  : Flow * Thread * list Effect :=
  match results with
  | None => (Raise, self, [])
  | Some [] => (Raise, self, [])
  | Some ((r0 :: _) as results) =>
    let sc :=
      foldl handle_result
        {| scan_self := self;
           violation_detected_this_frame := false;
           violation_display_frame := [];
           scan_out :=
             [Emit (signal_object_detection_result_stream
                      (Plot frame_bgr (map box r0)))] |}
        results in
    (Continue, scan_self sc,
     scan_out sc
     ++ if violation_detected_this_frame sc
        then [Emit (signal_violation_image
                      (Drawn frame_bgr (violation_display_frame sc)))]
        else [])
  end.

(** Lines 142-203: the sampling decision and what follows it. *)
Definition sample (self : Thread) (frame_bgr : Frame) (t : Tick)
  : Flow * Thread * list Effect :=
  if Qle_bool (sampling_interval_sec self)
              (current_time t - last_sample_timestamp self) then
    let self :=
      set_last_sample_timestamp
        (last_sample_timestamp self + sampling_interval_sec self) self in
    let self :=
      set_sampled_frame_count_total (sampled_frame_count_total self + 1) self in
    let self :=
      set_sampled_frame_count_1s (sampled_frame_count_1s self + 1) self in
    let out := [Emit (signal_sampled_audit_stream (Bgr frame_bgr))] in
    if object_detection_enabled self then
      let '(flow, self, out') := detect self frame_bgr (predict t) in
      (flow, self, out ++ out')
    else (Continue, self, out)
  else (Continue, self, []).

(** Lines 206-216: the one-second window. *)
Definition fps_window (self : Thread) (t : Tick) : Thread :=
  if Qle_bool 1 (current_time t - fps_window_start_time self) then
    set_fps_window_start_time (current_time t)
      (set_sampled_frame_count_1s 0 (set_raw_frame_count_1s 0 self))
  else self.

(** Lines 116-132: [read] returned [success = False]. *)
Definition read_failed (self : Thread) (t : Tick)
  : Flow * Thread * list Effect :=
  if isinstance_int (media_source self) then
    let out :=
      [Emit (signal_error "Camera disconnected. Attempting reconnect...");
       Release; Sleep 1; VideoCapture (media_source self)] in
    if negb (isOpened t) then
      (Break, self,
       out ++ [Emit (signal_error "Reconnection failed. Stopping thread.")])
    else
      (Continue, self,
       out ++ [Emit (signal_error "Camera reconnected successfully.")])
  else (Break, set_video_end_reached true self, []).

(** Lines 136-137: the counters of the raw frame path. *)
Definition count_raw_frame (self : Thread) : Thread :=
  let self :=
    set_raw_frame_count_total (raw_frame_count_total self + 1) self in
  set_raw_frame_count_1s (raw_frame_count_1s self + 1) self.

(** Lines 206-220: the end of the body, reached when nothing before it left
    the iteration. *)
Definition end_of_body (self : Thread) (t : Tick) : Flow * Thread :=
  let self := fps_window self t in
  if Qle_bool (validation_duration_sec self)
              (current_time t - validation_start_time self)
  then (Break, self)
  else (Continue, self).

(** Lines 113-220: the body of [while self.thread_active_status]. *)
Definition iteration (self : Thread) (t : Tick)
  : Flow * Thread * list Effect :=
  match read t with
  | None => read_failed self t
  | Some frame_bgr =>
    let self := count_raw_frame self in
    let out := [Emit (signal_raw_stream (Bgr frame_bgr))] in
    match sample self frame_bgr t with
    | (Continue, self, out') =>
      let '(flow, self) := end_of_body self t in
      (flow, self, out ++ out')
    | (flow, self, out') => (flow, self, out ++ out')
    end
  end.

(** ** The whole of [run] *)

Inductive Exit : Type :=
| InLoop      (* the ticks given are used up and the loop goes on *)
| Returned    (* [run] returned *)
| Raised.     (* [run] was left by an exception *)

Definition join (sep : string) (l : list string) : string :=
  match l with
  | [] => ""
  | x :: l => foldl (fun acc y => (acc ++ sep ++ y)%string) x l
  end.

(** Lines 236-241: the text of the final summary, from the labels in the
    order in which the set is iterated. *)
Definition final_summary (unique : list string) : string :=
  (String "010" "FINAL SUMMARY:" ++ String "010" "All violations are: "
   ++ join ", " unique)%string.

Definition drop_ratio (self : Thread) : Q :=
  if video_end_reached self then 0
  else if 0 <? raw_frame_count_total self then
    1 - inject_Z (sampled_frame_count_total self)
        / inject_Z (raw_frame_count_total self)
  else 0.

Definition report (self : Thread) : Report := {|
  configured_duration := validation_duration_sec self;
  actual_duration := actual_processing_duration_sec self;
  video_file_duration :=
    if Qlt_bool 0 (video_reported_duration_sec self)
    then Some (video_reported_duration_sec self) else None;
  total_raw_frames := raw_frame_count_total self;
  total_sampled_frames := sampled_frame_count_total self;
  frame_drop_ratio := drop_ratio self;
  termination_reason :=
    if video_end_reached self
    then "Termination reason  : Video file ended"
    else "Termination reason  : Validation time completed"
|}.

(** Lines 222-262, run once the loop is left. [last_time] is the local
    [current_time], unbound ([None]) when the loop body never ran: line 223
    then raises [UnboundLocalError]. *)
Definition shutdown (self : Thread) (last_time : option Q)
  : Thread * list Effect * Exit :=
  match last_time with
  | None => (self, [Release], Raised)
  | Some now =>
    let self :=
      set_actual_processing_duration_sec
        (now - validation_start_time self) self in
    (self,
     [Release]
     ++ (if bool_decide (detected_violation_types self ≠ ∅)
         then [Emit (signal_violation_alert
                       (final_summary
                          (iteration_order self
                             (detected_violation_types self))))]
         else [])
     ++ [Print (report self)],
     Returned)
  end.

(** The [while] loop, fed one [Tick] per evaluation of its condition. *)
Fixpoint loop (self : Thread) (last_time : option Q) (ticks : list Tick)
  : Thread * list Effect * Exit :=
  match ticks with
  | [] => (self, [], InLoop)
  | t :: ticks =>
    let self := foldl apply_call self (calls t) in
    if thread_active_status self then
      match iteration self t with
      | (Continue, self, out) =>
        let '(self, out', e) := loop self (Some (current_time t)) ticks in
        (self, out ++ out', e)
      | (Break, self, out) =>
        let '(self, out', e) := shutdown self (Some (current_time t)) in
        (self, out ++ out', e)
      | (Raise, self, out) => (self, out, Raised)
      end
    else shutdown self last_time
  end.

(** What [run] reads before the loop: the first clock reading and the two
    capture properties. *)
Record Start : Type := {
  start_time : Q;
  CAP_PROP_FPS : Q;
  CAP_PROP_FRAME_COUNT : Q
}.

(** Lines 99-110. *)
Definition prepare (self : Thread) (st : Start) : Thread :=
  let self :=
    if isinstance_str (media_source self)
       && Qlt_bool 0 (CAP_PROP_FPS st)
       && Qlt_bool 0 (CAP_PROP_FRAME_COUNT st)
    then set_video_reported_duration_sec
           (CAP_PROP_FRAME_COUNT st / CAP_PROP_FPS st) self
    else self in
  set_validation_start_time (start_time st)
    (set_fps_window_start_time (start_time st)
       (set_last_sample_timestamp (start_time st) self)).

Definition run (self : Thread) (st : Start) (ticks : list Tick)
  : Thread * list Effect * Exit :=
  let video_capture := VideoCapture (media_source self) in
  let '(self, out, e) := loop (prepare self st) None ticks in
  (self, video_capture :: out, e).

(** ** Vocabulary of the statements *)

(** The attributes fixed by the constructor and never assigned again, and
    the order in which sets are iterated. *)
Definition same_configuration (s s' : Thread) : Prop :=
  media_source s' = media_source s
  /\ target_processing_fps s' = target_processing_fps s
  /\ validation_duration_sec s' = validation_duration_sec s
  /\ violation_suppression_sec s' = violation_suppression_sec s
  /\ iteration_order s' = iteration_order s.

(** [s'] is [s] up to the suppression map and the set of violation types:
    the only two attributes the detection branch assigns. *)
Definition alerts_only (s s' : Thread) : Prop :=
  s' = set_detected_violation_types (detected_violation_types s')
         (set_violation_last_alert_time (violation_last_alert_time s') s).

(** A box whose label is one of the violations. *)
Definition violating (d : Detection) : bool :=
  label_in (label (box d)) violation_list.

(** The suppression check of line 186 for the box [d] in the state [self]. *)
Definition passes (self : Thread) (d : Detection) : bool :=
  Qle_bool (violation_suppression_sec self)
    (current_alert_time d
     - default 0%Q (violation_last_alert_time self !! label (box d))).

(** The alert emitted for the box [d]. *)
Definition alert_of (d : Detection) : Effect :=
  Emit (signal_violation_alert (alert_text (timestamp d) (label (box d)))).

Definition is_violation_image (e : Effect) : bool :=
  match e with Emit (signal_violation_image _) => true | _ => false end.

Definition is_violation_alert (e : Effect) : bool :=
  match e with Emit (signal_violation_alert _) => true | _ => false end.

(** The texts sent on [signal_violation_alert], in order. *)
Definition alert_texts (out : list Effect) : list string :=
  omap (fun e => match e with
                 | Emit (signal_violation_alert text) => Some text
                 | _ => None
                 end) out.

(** What the camera branch does before it looks at the reopened capture
    (lines 118-122). *)
Definition reconnect_attempt (m : MediaSource) : list Effect :=
  [Emit (signal_error "Camera disconnected. Attempting reconnect...");
   Release; Sleep 1; VideoCapture m].

(** The messages of lines 128 and 125. *)
Definition reconnected : Effect :=
  Emit (signal_error "Camera reconnected successfully.").

Definition reconnection_failed : Effect :=
  Emit (signal_error "Reconnection failed. Stopping thread.").

(** The message of line 128. *)
Definition is_reconnected (e : Effect) : bool :=
  match e with
  | Emit (signal_error msg) =>
    String.eqb msg "Camera reconnected successfully."
  | _ => false
  end.

(** A failed read followed by a successful reopen, with no call from the
    GUI in between. *)
Definition recovered_failure (t : Tick) : Prop :=
  calls t = [] /\ read t = None /\ isOpened t = true.

(** The local [current_time] after the iterations fed by [ticks]. *)
Definition last_time_after (lt : option Q) (ticks : list Tick) : option Q :=
  foldl (fun _ t => Some (current_time t)) lt ticks.

(** The first line of the final summary, with the line feeds around it. *)
Definition final_summary_header : string :=
  String "010" "FINAL SUMMARY:" ++ String "010" "".

(** An alert whose text is a final summary. *)
Definition is_final_summary (e : Effect) : bool :=
  match e with
  | Emit (signal_violation_alert text) =>
    String.prefix final_summary_header text
  | _ => false
  end.

Definition is_print (e : Effect) : bool :=
  match e with Print _ => true | _ => false end.

(** An effect that is neither a final summary nor a report. *)
Definition in_loop_effect (e : Effect) : bool :=
  negb (is_final_summary e) && negb (is_print e).

(** Lines 222-262 as effects, in terms of the state [run] ends in. *)
Definition shutdown_effects (s : Thread) : list Effect :=
  [Release]
  ++ (if bool_decide (detected_violation_types s ≠ ∅)
      then [Emit (signal_violation_alert
                    (final_summary
                       (iteration_order s (detected_violation_types s))))]
      else [])
  ++ [Print (report s)].

(** The result of a loop that has run the whole shutdown sequence: [run]
    returned, the capture was released and the report printed last. *)
Definition runs_shutdown (r : Thread * list Effect * Exit) : Prop :=
  r.2 = Returned
  /\ exists pre, r.1.2 = pre ++ shutdown_effects r.1.1.

(** The validation time is used up at this iteration. *)
Definition validation_elapsed (self : Thread) (t : Tick) : Prop :=
  (validation_duration_sec self
   <= current_time t - validation_start_time self)%Q.

(** No byte of [s] is a comma. *)
Fixpoint comma_free (s : string) : bool :=
  match s with
  | "" => true
  | String c s' => negb (Ascii.eqb c ",") && comma_free s'
  end.

(** The iteration fed by [t] leaves the loop because the source has no
    more frames: the thread is still active when the condition of the loop
    is evaluated, [read] answers [success = False] and the source is not a
    camera, so that lines 131-132 are run. *)
Definition end_of_stream (self : Thread) (t : Tick) : bool :=
  let self := foldl apply_call self (calls t) in
  thread_active_status self
  && match read t with None => true | Some _ => false end
  && negb (isinstance_int (media_source self)).

(** [order] iterates over every set as Python does: each element once and
    nothing else. *)
Definition enumerates (order : gset string -> list string) : Prop :=
  forall T, NoDup (order T) /\ forall l, l ∈ order T <-> l ∈ T.

(** ** Example inputs *)

(** The thread [MediaProcessorThread_TimeBased(0, 5, 30.0)]. *)
Definition camera_thread : Thread := {|
  media_source := Camera 0;
  target_processing_fps := 5;
  sampling_interval_sec := 1 / inject_Z 5;
  thread_active_status := true;
  object_detection_enabled := false;
  last_sample_timestamp := 0;
  raw_frame_count_total := 0;
  sampled_frame_count_total := 0;
  raw_frame_count_1s := 0;
  sampled_frame_count_1s := 0;
  fps_window_start_time := 0;
  validation_start_time := 0;
  validation_duration_sec := 30;
  video_reported_duration_sec := 0;
  video_end_reached := false;
  actual_processing_duration_sec := 0;
  violation_last_alert_time := ∅;
  violation_suppression_sec := 1;
  detected_violation_types := ∅;
  inference_target_fps := None;
  iteration_order := elements
|}.

(** [camera_thread] after [toggle_object_detection(True)]. *)
Definition detecting_thread : Thread :=
  toggle_object_detection true camera_thread.

(** The thread [MediaProcessorThread_TimeBased("site.mp4", 5, 30.0)]. *)
Definition file_thread : Thread := {|
  media_source := VideoFile "site.mp4";
  target_processing_fps := 5;
  sampling_interval_sec := 1 / inject_Z 5;
  thread_active_status := true;
  object_detection_enabled := false;
  last_sample_timestamp := 0;
  raw_frame_count_total := 0;
  sampled_frame_count_total := 0;
  raw_frame_count_1s := 0;
  sampled_frame_count_1s := 0;
  fps_window_start_time := 0;
  validation_start_time := 0;
  validation_duration_sec := 30;
  video_reported_duration_sec := 0;
  video_end_reached := false;
  actual_processing_duration_sec := 0;
  violation_last_alert_time := ∅;
  violation_suppression_sec := 1;
  detected_violation_types := ∅;
  inference_target_fps := None;
  iteration_order := elements
|}.

(** A capture whose clock starts at 0 and that reports no properties. *)
Definition clock_from_zero : Start :=
  {| start_time := 0; CAP_PROP_FPS := 0; CAP_PROP_FRAME_COUNT := 0 |}.

(** An iteration that reads frame 1 half a second after the start, with a
    detector that finds nothing. *)
Definition quiet_tick : Tick := {|
  calls := [];
  read := Some 1%nat;
  current_time := 1 # 2;
  isOpened := true;
  predict := Some [[]]
|}.

(** A "NO-Mask" box handled at clock reading [now]. *)
Definition mask_hit (now : Q) : Detection := {|
  box := {| label := "NO-Mask"; confidence := 9 # 10;
            xyxy := (10, 20, 110, 220) |};
  current_alert_time := now;
  timestamp := "12:00:00"
|}.

(** An iteration that reads a frame at [now] on which the detector finds
    one "NO-Mask" box. *)
Definition hit_tick (now : Q) : Tick := {|
  calls := [];
  read := Some 1%nat;
  current_time := now;
  isOpened := true;
  predict := Some [[mask_hit now]]
|}.

(** An iteration that reads a frame at [now] on which the detector finds
    one "NO-Hardhat" box. *)
Definition hardhat_tick (now : Q) : Tick := {|
  calls := [];
  read := Some 2%nat;
  current_time := now;
  isOpened := true;
  predict :=
    Some [[{| box := {| label := "NO-Hardhat"; confidence := 8 # 10;
                        xyxy := (30, 40, 130, 240) |};
              current_alert_time := now;
              timestamp := "12:00:02" |}]]
|}.

(** An iteration whose [read] fails; [reopened] is what [isOpened] answers
    on the new capture. *)
Definition failing_tick (now : Q) (reopened : bool) : Tick := {|
  calls := [];
  read := None;
  current_time := now;
  isOpened := reopened;
  predict := None
|}.

(** An iteration that reads frame [n] at [now], with a detector that
    finds nothing. *)
Definition frame_tick (n : nat) (now : Q) : Tick := {|
  calls := [];
  read := Some n;
  current_time := now;
  isOpened := true;
  predict := Some [[]]
|}.

(** An iteration on which the detector raises. *)
Definition raising_tick (now : Q) : Tick := {|
  calls := [];
  read := Some 1%nat;
  current_time := now;
  isOpened := true;
  predict := None
|}.

(** An iteration before whose condition the GUI calls [terminate_thread]. *)
Definition stopping_tick (now : Q) : Tick := {|
  calls := [call_terminate_thread];
  read := Some 1%nat;
  current_time := now;
  isOpened := true;
  predict := Some [[]]
|}.

(** A file of three frames, read 0.1, 0.2 and 0.3 seconds after the
    start, and the read that finds its end. *)
Definition short_file : list Tick :=
  [frame_tick 1 (1 # 10); frame_tick 2 (2 # 10); frame_tick 3 (3 # 10);
   failing_tick (4 # 10) false].

(** The same three frames, with [terminate_thread] called before a fourth
    is read. *)
Definition stopped_file : list Tick :=
  [frame_tick 1 (1 # 10); frame_tick 2 (2 # 10); frame_tick 3 (3 # 10);
   stopping_tick (4 # 10)].

(** ** Tactics *)

(** Closes [x ∉ l] for a list [l] written out, none of whose elements is
    built like [x]. *)
Ltac absent :=
  let Hx := fresh "Hx" in
  intros Hx; cbn [app] in Hx;
  repeat (apply elem_of_cons in Hx as [Hx|Hx]; [discriminate Hx|]);
  by apply elem_of_nil in Hx.

(** Decides an order between two rationals written out. *)
Ltac qcompare :=
  vm_compute; first [reflexivity | discriminate | intros ?; discriminate].

(** ** Vocabulary of the further properties *)

Definition is_raw_signal (e : Effect) : bool :=
  match e with Emit (signal_raw_stream _) => true | _ => false end.

Definition is_sampled_signal (e : Effect) : bool :=
  match e with Emit (signal_sampled_audit_stream _) => true | _ => false end.

(** How many effects of [out] satisfy [p], as a Python int. *)
Definition count (p : Effect -> bool) (out : list Effect) : Z :=
  Z.of_nat (length (List.filter p out)).

(** Two frames, read half a second and one second after the start. *)
Definition two_frames : list Tick := [quiet_tick; hit_tick 1].

(** The suppression map and the set of violation types tell the same
    story: a label has a last-alert time exactly when it is in the set, and
    only labels of [violation_list] are in either. *)
Definition bookkept (s : Thread) : Prop :=
  dom (violation_last_alert_time s) = detected_violation_types s
  /\ forall l, l ∈ detected_violation_types s ->
               label_in l violation_list = true.

(** An alert raised for a box, as opposed to the final summary. *)
Definition is_box_alert (e : Effect) : bool :=
  is_violation_alert e && negb (is_final_summary e).

(** What a step does to the set of violation types, as far as the final
    summary is concerned. *)
Definition types_step (s : Thread) (r : Thread * list Effect) : Prop :=
  (detected_violation_types r.1 = ∅
   <-> detected_violation_types s = ∅ /\ existsb is_box_alert r.2 = false)
  /\ detected_violation_types s ⊆ detected_violation_types r.1
  /\ (bookkept s -> bookkept r.1).

(** A file capture that reports 300 frames at 30 frames per second. *)
Definition ten_second_file : Start :=
  {| start_time := 0; CAP_PROP_FPS := 30; CAP_PROP_FRAME_COUNT := 300 |}.

(** The attributes set before the loop and never assigned in it. *)
Definition same_session (s s' : Thread) : Prop :=
  video_reported_duration_sec s' = video_reported_duration_sec s
  /\ validation_start_time s' = validation_start_time s
  /\ validation_duration_sec s' = validation_duration_sec s.

(** ** The consumers of the alerts: [RAGWorker] and the monitoring page

    [rag_handler.py] and the alert slots of [Gui_screens.py]. A Python
    [str] is the [string] of its UTF-8 bytes. The retriever
    ([rag_logic.rag_retriever], not part of these files) is a parameter. *)

(** [sub in s]. *)
Fixpoint contains (sub s : string) : bool :=
  String.prefix sub s
  || match s with
     | "" => false
     | String _ s' => contains sub s'
     end.

(** [s.split(sep)] for a non-empty [sep]: the pieces between the
    occurrences of [sep] found from left to right. [skip] counts the bytes
    of an occurrence still to be passed over, [piece] is the piece being
    read. *)
Fixpoint split_from (sep : string) (skip : nat) (piece s : string)
  : list string :=
  match s with
  | "" => [piece]
  | String c s' =>
    match skip with
    | S k => split_from sep k piece s'
    | O =>
      if String.prefix sep s
      then piece :: split_from sep (String.length sep - 1) "" s'
      else split_from sep 0 (piece ++ String c "")%string s'
    end
  end.

Definition split (sep s : string) : list string := split_from sep 0 "" s.

(** [s.replace(old, new)] for a non-empty [old]. *)
Fixpoint replace_from (old new : string) (skip : nat) (s : string) : string :=
  match s with
  | "" => ""
  | String c s' =>
    match skip with
    | S k => replace_from old new k s'
    | O =>
      if String.prefix old s
      then (new ++ replace_from old new (String.length old - 1) s')%string
      else String c (replace_from old new 0 s')
    end
  end.

Definition replace (old new s : string) : string := replace_from old new 0 s.

(** The number of bytes of the white-space character [s] starts with, 0
    when it starts with none. White space is what [str.isspace] accepts:
    U+0009 to U+000D, U+001C to U+0020, U+0085, U+00A0, U+1680, U+2000 to
    U+200A, U+2028, U+2029, U+202F, U+205F and U+3000. *)
Definition space_at (s : string) : nat :=
  match s with
  | "" => 0
  | String c1 s1 =>
    let b1 := nat_of_ascii c1 in
    if ((9 <=? b1) && (b1 <=? 13) || (28 <=? b1) && (b1 <=? 32))%nat then 1
    else
      match s1 with
      | "" => 0
      | String c2 s2 =>
        let b2 := nat_of_ascii c2 in
        if (b1 =? 194)%nat then
          if ((b2 =? 133) || (b2 =? 160))%nat then 2 else 0
        else
          match s2 with
          | "" => 0
          | String c3 _ =>
            let b3 := nat_of_ascii c3 in
            if ((b1 =? 225) && (b2 =? 154) && (b3 =? 128))%nat then 3
            else if ((b1 =? 226) && (b2 =? 128)
                     && ((128 <=? b3) && (b3 <=? 138)
                         || (b3 =? 168) || (b3 =? 169) || (b3 =? 175)))%nat
            then 3
            else if ((b1 =? 226) && (b2 =? 129) && (b3 =? 159))%nat then 3
            else if ((b1 =? 227) && (b2 =? 128) && (b3 =? 128))%nat then 3
            else 0
          end
      end
  end.

(** [s.lstrip()]. *)
Fixpoint lstrip_from (skip : nat) (s : string) : string :=
  match s with
  | "" => ""
  | String _ s' =>
    match skip with
    | S k => lstrip_from k s'
    | O =>
      match space_at s with
      | O => s
      | S k => lstrip_from k s'
      end
    end
  end.

(** [s] is made of white-space characters only. *)
Fixpoint all_space_from (skip : nat) (s : string) : bool :=
  match s with
  | "" => true
  | String _ s' =>
    match skip with
    | S k => all_space_from k s'
    | O =>
      match space_at s with
      | O => false
      | S k => all_space_from k s'
      end
    end
  end.

(** [s.rstrip()]. *)
Fixpoint rstrip (s : string) : string :=
  match s with
  | "" => ""
  | String c s' => if all_space_from 0 s then "" else String c (rstrip s')
  end.

(** [s.strip()]. *)
Definition strip (s : string) : string := rstrip (lstrip_from 0 s).

(** [list(dict.fromkeys(l))]: the first occurrence of each element, in
    order. *)
Fixpoint fromkeys (l : list string) : list string :=
  match l with
  | [] => []
  | x :: l => x :: List.filter (fun y => negb (String.eqb x y)) (fromkeys l)
  end.

(** What [retrieve] gives back: a list of documents (dicts from string
    keys to strings), or an exception with its message. *)
Inductive Retrieved : Type :=
| Documents (docs : list (gmap string string))
| Raises (message : string).

(** What the worker does: a response sent to the GUI, a call of the
    retriever, a line on the standard output. *)
Inductive RagEffect : Type :=
| Respond (text : string)      (* signal_response_ready.emit *)
| Retrieve (query : string)    (* rag_logic_callback.retrieve *)
| Stdout (line : string).      (* print *)

(** Lines 22-30 of [rag_handler.py]: the first loop of [run]. *)
Definition clean_violations (violations_list : list string) : list string :=
  foldl (fun clean v =>
           if contains "FINAL SUMMARY" v then clean
           else if contains "VIOLATION:" v
                then clean ++ [strip (List.last (split "VIOLATION:" v) "")]
                else clean)
        [] violations_list.

(** Lines 43-46: the query built from a violation name. *)
Definition rag_query (violation : string) : string :=
  ("Worker not wearing "
   ++ strip (replace "-" " " (replace "NO-" "" violation))
   ++ ". PPE safety guidelines.")%string.

Section RAGWorker.

(** The retriever, taken as a function of the query. *)
Variable retrieve : string -> Retrieved.

(** Lines 59-60: one response per document; a document without the key
    ["content"] raises [KeyError]. *)
Fixpoint emit_documents (docs : list (gmap string string))
  : list RagEffect * option string :=
  match docs with
  | [] => ([], None)
  | doc :: docs =>
    match doc !! "content" with
    | None => ([], Some "'content'")
    | Some content =>
      let '(out, raised) := emit_documents docs in
      (Respond ("- " ++ content ++ String "010" "")%string :: out, raised)
    end
  end.

(** Lines 40-60: the second loop of [run], up to the first exception. *)
Fixpoint send_each (unique_violations : list string)
  : list RagEffect * option string :=
  match unique_violations with
  | [] => ([], None)
  | violation :: rest =>
    let query := rag_query violation in
    let out :=
      [Stdout ("Sending to RAG: " ++ violation)%string; Retrieve query] in
    match retrieve query with
    | Raises message => (out, Some message)
    | Documents [] =>
      let '(out', raised) := send_each rest in
      (out
       ++ [Respond (query ++ " → No relevant safety documents found."
                    ++ String "010" "")%string]
       ++ out', raised)
    | Documents docs =>
      match emit_documents docs with
      | (out1, Some message) =>
        (out
         ++ [Respond (String "010" "Violation: " ++ query
                      ++ String "010" "")%string]
         ++ out1, Some message)
      | (out1, None) =>
        let '(out', raised) := send_each rest in
        (out
         ++ [Respond (String "010" "Violation: " ++ query
                      ++ String "010" "")%string]
         ++ out1 ++ out', raised)
      end
    end
  end.

(** The second loop raises while it handles [violation]: the retriever
    does (line 48), or a document it returns has no key ["content"]
    (line 60). *)
Definition raises_on (violation : string) : bool :=
  match retrieve (rag_query violation) with
  | Raises _ => true
  | Documents docs =>
    existsb (fun doc => bool_decide (doc !! "content" = None)) docs
  end.

(** The names of [unique_violations] up to the first one on which the
    loop raises, that one included. *)
Fixpoint up_to_exception (unique_violations : list string) : list string :=
  match unique_violations with
  | [] => []
  | violation :: rest =>
    violation :: if raises_on violation then [] else up_to_exception rest
  end.

(** [RAGWorker.run]. The attribute [user_query] is never read. *)
Definition RAGWorker_run (user_query : string)
    (violations_list : list string) : list RagEffect :=
  let unique_violations := fromkeys (clean_violations violations_list) in
  match unique_violations with
  | [] => [Respond "No violations available for RAG."]
  | _ =>
    let '(out, raised) := send_each unique_violations in
    out ++ match raised with
           | Some message => [Respond ("RAG Error: " ++ message)%string]
           | None => []
           end
  end.

End RAGWorker.


(** A character of a [time.strftime("%H:%M:%S")] text: a digit or a
    colon. *)
Definition is_clock_char (c : ascii) : bool :=
  let n := nat_of_ascii c in
  ((48 <=? n) && (n <=? 57) || (n =? 58))%nat.

Fixpoint clock_text (s : string) : bool :=
  match s with
  | "" => true
  | String c s' => is_clock_char c && clock_text s'
  end.

(** What the thread sends on [signal_violation_alert]: the alert of a box
    or a final summary. *)
Inductive Message : Type :=
| BoxAlert (timestamp label : string)
| Summary (unique : list string).

Definition message_text (m : Message) : string :=
  match m with
  | BoxAlert timestamp label => alert_text timestamp label
  | Summary unique => final_summary unique
  end.

Definition message_label (m : Message) : option string :=
  match m with
  | BoxAlert _ label => Some label
  | Summary _ => None
  end.

(** A message as the thread builds it: the time stamp of an alert is a
    clock text and its label one of the violation list. *)
Definition thread_message (m : Message) : Prop :=
  match m with
  | BoxAlert timestamp label =>
    clock_text timestamp = true /\ label_in label violation_list = true
  | Summary _ => True
  end.

(** The queries passed to the retriever, in order. *)
Definition retrieved_queries (out : list RagEffect) : list string :=
  omap (fun e => match e with Retrieve q => Some q | _ => None end) out.

(** The contribution of one entry of the context to [clean_violations]. *)
Definition clean_entry (v : string) : list string :=
  if contains "FINAL SUMMARY" v then []
  else if contains "VIOLATION:" v
       then [strip (List.last (split "VIOLATION:" v) "")]
       else [].

(** A retriever that knows one document, about masks. *)
Definition mask_retriever (query : string) : Retrieved :=
  if String.eqb query "Worker not wearing Mask. PPE safety guidelines."
  then Documents [{["content" := "Masks are mandatory on site."]}]
  else Documents [].







(** ** Loading the model

    [load_yolo_model] of [object_detection.py], with [os.path] as
    [posixpath]. What the file system answers to [os.path.exists] and the
    absolute path of the module are parameters. *)

Definition is_slash (c : ascii) : bool := Ascii.eqb c "/".

Fixpoint has_slash (s : string) : bool :=
  match s with
  | "" => false
  | String c s' => is_slash c || has_slash s'
  end.

Fixpoint all_slashes (s : string) : bool :=
  match s with
  | "" => true
  | String c s' => is_slash c && all_slashes s'
  end.

Fixpoint ends_with_slash (s : string) : bool :=
  match s with
  | "" => false
  | String c "" => is_slash c
  | String _ s' => ends_with_slash s'
  end.

(** [p[:p.rfind('/') + 1]]: [p] up to its last slash, included. *)
Fixpoint up_to_last_slash (p : string) : string :=
  match p with
  | "" => ""
  | String c p' => if has_slash p then String c (up_to_last_slash p') else ""
  end.

(** [s.rstrip('/')]. *)
Fixpoint rstrip_slashes (s : string) : string :=
  match s with
  | "" => ""
  | String c s' => if all_slashes s then "" else String c (rstrip_slashes s')
  end.

(** [posixpath.dirname]. *)
Definition dirname (p : string) : string :=
  let head := up_to_last_slash p in
  if negb (String.eqb head "") && negb (all_slashes head)
  then rstrip_slashes head
  else head.

(** [posixpath.join] of two components. *)
Definition join_path (a b : string) : string :=
  if String.prefix "/" b then b
  else if String.eqb a "" || ends_with_slash a then (a ++ b)%string
       else (a ++ "/" ++ b)%string.

(** How [load_yolo_model] ends: with the model built from a file, or with
    [FileNotFoundError]. *)
Inductive Loaded : Type :=
| YOLO (path : string)
| FileNotFoundError (message : string).

(** [load_yolo_model]: the lines printed and the outcome. [file] is
    [os.path.abspath(__file__)]. *)
Definition load_yolo_model (file : string) (exists_ : string -> bool)
  : list string * Loaded :=
  let src_dir := dirname file in
  let project_root := dirname src_dir in
  let models_dir := join_path project_root "models" in
  let custom_model_path := join_path models_dir "best.pt" in
  let fallback_model_path := join_path models_dir "yolov8n.pt" in
  if exists_ custom_model_path then
    (["[INFO] Loading custom model: " ++ custom_model_path]%string,
     YOLO custom_model_path)
  else if exists_ fallback_model_path then
    (["[INFO] Custom model not found → loading fallback model"],
     YOLO fallback_model_path)
  else ([], FileNotFoundError "No model file found in models folder!").

(** * Properties *)

(** ** What the steps leave alone *)

Lemma same_configuration_refl s : same_configuration s s.
Proof. by unfold same_configuration. Qed.

Lemma same_configuration_trans s1 s2 s3 :
  same_configuration s1 s2 -> same_configuration s2 s3 ->
  same_configuration s1 s3.
Proof.
  unfold same_configuration.
  intros (-> & -> & -> & -> & ->) (-> & -> & -> & -> & ->). done.
Qed.

Lemma alerts_only_refl s : alerts_only s s.
Proof. unfold alerts_only. by destruct s. Qed.

Lemma alerts_only_trans s1 s2 s3 :
  alerts_only s1 s2 -> alerts_only s2 s3 -> alerts_only s1 s3.
Proof.
  unfold alerts_only. intros H12 H23. rewrite H23, H12.
  by destruct s1.
Qed.

Lemma handle_box_alerts_only acc d :
  alerts_only (scan_self acc) (scan_self (handle_box acc d)).
Proof.
  unfold handle_box.
  destruct (label_in _ _); [|apply alerts_only_refl].
  destruct (Qle_bool _ _); simpl; [|apply alerts_only_refl].
  unfold alerts_only. by destruct (scan_self acc).
Qed.

Lemma handle_result_alerts_only ds acc :
  alerts_only (scan_self acc) (scan_self (handle_result acc ds)).
Proof.
  unfold handle_result. revert acc.
  induction ds as [|d ds IH]; intros acc; simpl.
  - apply alerts_only_refl.
  - eapply alerts_only_trans; [apply handle_box_alerts_only | apply IH].
Qed.

Lemma scan_alerts_only rs acc :
  alerts_only (scan_self acc) (scan_self (foldl handle_result acc rs)).
Proof.
  revert acc. induction rs as [|r rs IH]; intros acc; simpl.
  - apply alerts_only_refl.
  - eapply alerts_only_trans; [apply handle_result_alerts_only | apply IH].
Qed.

Lemma detect_alerts_only self f results flow s' out :
  detect self f results = (flow, s', out) -> alerts_only self s'.
Proof.
  unfold detect. destruct results as [[|r0 rs]|].
  - intros [= _ <- _]. apply alerts_only_refl.
  - intros [= _ <- _]. apply (scan_alerts_only (r0 :: rs)).
  - intros [= _ <- _]. apply alerts_only_refl.
Qed.

Lemma alerts_only_configuration s s' :
  alerts_only s s' -> same_configuration s s'.
Proof. unfold alerts_only. intros ->. by destruct s. Qed.

Lemma alerts_only_sampling s s' :
  alerts_only s s' ->
  last_sample_timestamp s' = last_sample_timestamp s
  /\ sampling_interval_sec s' = sampling_interval_sec s
  /\ sampled_frame_count_total s' = sampled_frame_count_total s
  /\ raw_frame_count_total s' = raw_frame_count_total s.
Proof. unfold alerts_only. intros ->. by destruct s. Qed.

Lemma fps_window_sampling s t :
  last_sample_timestamp (fps_window s t) = last_sample_timestamp s
  /\ sampling_interval_sec (fps_window s t) = sampling_interval_sec s
  /\ sampled_frame_count_total (fps_window s t) = sampled_frame_count_total s
  /\ raw_frame_count_total (fps_window s t) = raw_frame_count_total s.
Proof. unfold fps_window. destruct (Qle_bool _ _); by destruct s. Qed.

(** The sampling branch of [sample], spelled out. *)
Lemma sample_due self f t flow s' out :
  Qle_bool (sampling_interval_sec self)
           (current_time t - last_sample_timestamp self) = true ->
  sample self f t = (flow, s', out) ->
  last_sample_timestamp s'
  = (last_sample_timestamp self + sampling_interval_sec self)%Q
  /\ sampled_frame_count_total s' = sampled_frame_count_total self + 1
  /\ raw_frame_count_total s' = raw_frame_count_total self
  /\ exists out', out = Emit (signal_sampled_audit_stream (Bgr f)) :: out'.
Proof.
  unfold sample. intros ->. cbv zeta.
  match goal with |- context [detect ?s ?g ?r] =>
    destruct (detect s g r) as [[fl s1] o1] eqn:D end.
  apply detect_alerts_only, alerts_only_sampling in D.
  destruct D as (D1 & _ & D2 & D3).
  match goal with |- context [if ?b then _ else _] => destruct b end.
  - intros [= _ <- <-]. rewrite D1, D2, D3. destruct self; simpl. eauto.
  - intros [= _ <- <-]. destruct self; simpl. eauto.
Qed.

Lemma sample_not_due self f t :
  Qle_bool (sampling_interval_sec self)
           (current_time t - last_sample_timestamp self) = false ->
  sample self f t = (Continue, self, []).
Proof. unfold sample. by intros ->. Qed.

Lemma end_of_body_sampling s t :
  let s' := snd (end_of_body s t) in
  last_sample_timestamp s' = last_sample_timestamp s
  /\ sampling_interval_sec s' = sampling_interval_sec s
  /\ sampled_frame_count_total s' = sampled_frame_count_total s
  /\ raw_frame_count_total s' = raw_frame_count_total s.
Proof.
  unfold end_of_body. cbv zeta.
  destruct (Qle_bool _ _); apply fps_window_sampling.
Qed.

(** The result of [sample] goes through the rest of the body with its
    sampling attributes intact. *)
Lemma iteration_after_sample self f t flow s' out :
  read t = Some f ->
  iteration self t = (flow, s', out) ->
  exists flow1 s1 out1,
    sample (count_raw_frame self) f t = (flow1, s1, out1)
    /\ out = Emit (signal_raw_stream (Bgr f)) :: out1
    /\ last_sample_timestamp s' = last_sample_timestamp s1
    /\ sampled_frame_count_total s' = sampled_frame_count_total s1
    /\ raw_frame_count_total s' = raw_frame_count_total s1.
Proof.
  intros Hr. unfold iteration. rewrite Hr. cbv zeta.
  destruct (sample (count_raw_frame self) f t) as [[fl s1] o1] eqn:S.
  destruct fl.
  - pose proof (end_of_body_sampling s1 t) as (W1 & _ & W2 & W3).
    destruct (end_of_body s1 t) as [fl s2]. simpl in *.
    intros [= <- <- <-]. by exists Continue, s1, o1.
  - intros [= <- <- <-]. by exists Break, s1, o1.
  - intros [= <- <- <-]. by exists Raise, s1, o1.
Qed.

(** C1: on an iteration that has read a frame, the frame is sampled (the
    sampled-stream signal is emitted and the sampled counter grows by one)
    exactly when [current_time - last_sample_timestamp >=
    sampling_interval_sec]; a sampled frame moves [last_sample_timestamp]
    forward by one [sampling_interval_sec], whatever [current_time] is, and
    a frame that is not sampled leaves it as it was. *)
Theorem sampling_advances_by_one_interval self t f flow s' out :
  read t = Some f ->
  iteration self t = (flow, s', out) ->
  let due :=
    (sampling_interval_sec self
     <= current_time t - last_sample_timestamp self)%Q in
  (Emit (signal_sampled_audit_stream (Bgr f)) ∈ out <-> due)
  /\ (due ->
      last_sample_timestamp s'
      = (last_sample_timestamp self + sampling_interval_sec self)%Q
      /\ sampled_frame_count_total s' = sampled_frame_count_total self + 1)
  /\ (~ due ->
      last_sample_timestamp s' = last_sample_timestamp self
      /\ sampled_frame_count_total s' = sampled_frame_count_total self).
Proof.
  intros Hr Hit due.
  destruct (iteration_after_sample _ _ _ _ _ _ Hr Hit)
    as (fl1 & s1 & o1 & S & -> & L & C & _).
  set (self1 := count_raw_frame self) in S.
  assert (Hl : last_sample_timestamp self1 = last_sample_timestamp self)
    by (by destruct self).
  assert (Hi : sampling_interval_sec self1 = sampling_interval_sec self)
    by (by destruct self).
  assert (Hc : sampled_frame_count_total self1
               = sampled_frame_count_total self) by (by destruct self).
  destruct (Qle_bool (sampling_interval_sec self1)
              (current_time t - last_sample_timestamp self1)) eqn:E.
  - assert (Hd : due).
    { unfold due. rewrite <- Hi, <- Hl. by apply Qle_bool_iff. }
    destruct (sample_due _ _ _ _ _ _ E S) as (A & B & _ & o & ->).
    rewrite L, C, A, B, Hl, Hi, Hc.
    split; [|split]; [|done|done].
    split; [done|]. intros _. set_solver.
  - assert (Hd : ~ due).
    { unfold due. rewrite <- Hi, <- Hl. rewrite <- Qle_bool_iff, E. done. }
    rewrite (sample_not_due _ _ _ E) in S. injection S as <- <- <-.
    rewrite L, C, Hl, Hc.
    split; [|split]; [|done|done].
    split; [|done]. intros Hin. exfalso.
    apply list_elem_of_singleton in Hin. discriminate.
Qed.

Example init_camera_thread :
  init (Camera 0) 5 30 elements = Some camera_thread.
Proof. reflexivity. Qed.

Lemma sampling_advances_by_one_interval_witness :
  let r := iteration camera_thread quiet_tick in
  read quiet_tick = Some 1%nat
  /\ iteration camera_thread quiet_tick = (r.1.1, r.1.2, r.2)
  /\ last_sample_timestamp r.1.2 = (0 + 1 / inject_Z 5)%Q
  /\ sampled_frame_count_total r.1.2 = 1.
Proof.
  intros r.
  assert (read quiet_tick = Some 1%nat) as Hr by reflexivity.
  assert (iteration camera_thread quiet_tick = (r.1.1, r.1.2, r.2)) as Hi
    by (vm_compute; reflexivity).
  split; [exact Hr|]. split; [exact Hi|].
  apply (sampling_advances_by_one_interval
           camera_thread quiet_tick 1%nat r.1.1 r.1.2 r.2 Hr Hi).
  unfold Qle. simpl. lia.
Defined.

(** ** The configuration is fixed for the session *)

Lemma apply_call_configuration s c : same_configuration s (apply_call s c).
Proof.
  destruct c as [n|b|]; simpl.
  - unfold update_inference_fps.
    destruct (0 <? n), (int_too_large n); by destruct s.
  - by destruct s.
  - by destruct s.
Qed.

Lemma apply_calls_configuration cs s :
  same_configuration s (foldl apply_call s cs).
Proof.
  revert s. induction cs as [|c cs IH]; intros s; simpl.
  - apply same_configuration_refl.
  - eapply same_configuration_trans; [apply apply_call_configuration|apply IH].
Qed.

Lemma fps_window_configuration s t : same_configuration s (fps_window s t).
Proof. unfold fps_window. destruct (Qle_bool _ _); by destruct s. Qed.

Lemma end_of_body_configuration s t :
  same_configuration s (snd (end_of_body s t)).
Proof.
  unfold end_of_body. cbv zeta.
  destruct (Qle_bool _ _); apply fps_window_configuration.
Qed.

Lemma sample_configuration s f t flow s' out :
  sample s f t = (flow, s', out) -> same_configuration s s'.
Proof.
  unfold sample. destruct (Qle_bool _ _); cbv zeta.
  - match goal with |- context [detect ?a ?g ?r] =>
      destruct (detect a g r) as [[fl s1] o1] eqn:D end.
    apply detect_alerts_only, alerts_only_configuration in D.
    match goal with |- context [if ?b then _ else _] => destruct b end.
    + intros [= _ <- _].
      eapply same_configuration_trans; [|exact D]. by destruct s.
    + intros [= _ <- _]. by destruct s.
  - intros [= _ <- _]. apply same_configuration_refl.
Qed.

Lemma read_failed_configuration s t flow s' out :
  read_failed s t = (flow, s', out) -> same_configuration s s'.
Proof.
  unfold read_failed. destruct (isinstance_int _); [destruct (negb _)|];
    intros [= _ <- _]; by destruct s.
Qed.

Lemma iteration_configuration s t flow s' out :
  iteration s t = (flow, s', out) -> same_configuration s s'.
Proof.
  unfold iteration. destruct (read t) as [f|].
  - cbv zeta.
    destruct (sample (count_raw_frame s) f t) as [[fl s1] o1] eqn:S.
    apply sample_configuration in S.
    assert (same_configuration s s1) as S'.
    { eapply same_configuration_trans; [|exact S]. by destruct s. }
    destruct fl.
    + pose proof (end_of_body_configuration s1 t) as E.
      destruct (end_of_body s1 t) as [fl s2]. simpl in E.
      intros [= _ <- _]. by eapply same_configuration_trans.
    + by intros [= _ <- _].
    + by intros [= _ <- _].
  - apply read_failed_configuration.
Qed.

Lemma shutdown_configuration s lt s' out e :
  shutdown s lt = (s', out, e) -> same_configuration s s'.
Proof.
  unfold shutdown. destruct lt; intros [= <- _ _]; by destruct s.
Qed.

Lemma loop_configuration ticks s lt s' out e :
  loop s lt ticks = (s', out, e) -> same_configuration s s'.
Proof.
  revert s lt s' out e.
  induction ticks as [|t ticks IH]; intros s lt s' out e; cbn [loop].
  - intros [= <- _ _]. apply same_configuration_refl.
  - pose proof (apply_calls_configuration (calls t) s) as C.
    destruct (thread_active_status _).
    + destruct (iteration _ t) as [[fl s1] o1] eqn:I.
      apply iteration_configuration in I.
      destruct fl.
      * destruct (loop s1 (Some (current_time t)) ticks) as [[s2 o2] e2] eqn:L.
        apply IH in L. intros [= <- _ _].
        eauto using same_configuration_trans.
      * destruct (shutdown s1 (Some (current_time t))) as [[s2 o2] e2] eqn:L.
        apply shutdown_configuration in L. intros [= <- _ _].
        eauto using same_configuration_trans.
      * intros [= <- _ _]. eauto using same_configuration_trans.
    + intros L. apply shutdown_configuration in L.
      eauto using same_configuration_trans.
Qed.

Lemma prepare_configuration s st : same_configuration s (prepare s st).
Proof.
  unfold prepare.
  match goal with |- context [if ?b then _ else _] => destruct b end;
    by destruct s.
Qed.

Lemma run_configuration s st ticks s' out e :
  run s st ticks = (s', out, e) -> same_configuration s s'.
Proof.
  unfold run. cbv zeta.
  destruct (loop _ _ _) as [[s1 o1] e1] eqn:L.
  apply loop_configuration in L. intros [= <- _ _].
  eauto using same_configuration_trans, prepare_configuration.
Qed.

(** C10: for [n > 0], [update_inference_fps n] writes [n] to the separate
    attribute [inference_target_fps]. When [n] is below [2^1024 - 2^970],
    so that [1.0 / n] can be computed, it then sets [sampling_interval_sec]
    to [1/n] and returns; from there on it raises [OverflowError] and
    [sampling_interval_sec] keeps its value. In both cases
    [target_processing_fps] keeps the value it had, and keeps it through
    any further calls and the whole of [run], and [last_sample_timestamp]
    and the four counters are left as they were. *)
Theorem update_inference_fps_effect (n : Z) (self : Thread) :
  0 < n ->
  let self' := (update_inference_fps n self).1 in
  (n < 2 ^ 1024 - 2 ^ 970 ->
   (update_inference_fps n self).2 = Returns
   /\ sampling_interval_sec self' = (1 / inject_Z n)%Q)
  /\ (2 ^ 1024 - 2 ^ 970 <= n ->
      (update_inference_fps n self).2 = OverflowError
      /\ sampling_interval_sec self' = sampling_interval_sec self)
  /\ inference_target_fps self' = Some n
  /\ target_processing_fps self' = target_processing_fps self
  /\ last_sample_timestamp self' = last_sample_timestamp self
  /\ raw_frame_count_total self' = raw_frame_count_total self
  /\ sampled_frame_count_total self' = sampled_frame_count_total self
  /\ raw_frame_count_1s self' = raw_frame_count_1s self
  /\ sampled_frame_count_1s self' = sampled_frame_count_1s self
  /\ forall st ticks,
       target_processing_fps (run self' st ticks).1.1
       = target_processing_fps self.
Proof.
  intros Hn self'.
  assert (update_inference_fps n self
          = if int_too_large n
            then (set_inference_target_fps (Some n) self, OverflowError)
            else (set_sampling_interval_sec (1 / inject_Z n)
                    (set_inference_target_fps (Some n) self), Returns))
    as E.
  { unfold update_inference_fps. by destruct (Z.ltb_spec 0 n); [|lia]. }
  assert (int_too_large n = true <-> 2 ^ 1024 - 2 ^ 970 <= n) as T.
  { unfold int_too_large. rewrite Z.leb_le, Z.abs_eq by lia. tauto. }
  subst self'. rewrite E.
  destruct T as [T1 T2].
  destruct (int_too_large n); cbn [fst snd].
  - specialize (T1 eq_refl).
    split; [intros ?; lia|]. split; [intros _; by destruct self|].
    repeat split; try by destruct self.
    intros st ticks.
    destruct (run _ st ticks) as [[s1 o1] e1] eqn:R.
    apply run_configuration in R. destruct R as (_ & R & _).
    simpl. rewrite R. by destruct self.
  - assert (n < 2 ^ 1024 - 2 ^ 970) as Small.
    { destruct (Z.lt_ge_cases n (2 ^ 1024 - 2 ^ 970)) as [?|Hge]; [done|].
      by apply T2 in Hge. }
    split; [intros _; by destruct self|]. split; [intros ?; lia|].
    repeat split; try by destruct self.
    intros st ticks.
    destruct (run _ st ticks) as [[s1 o1] e1] eqn:R.
    apply run_configuration in R. destruct R as (_ & R & _).
    simpl. rewrite R. by destruct self.
Qed.

Lemma update_inference_fps_effect_witness :
  0 < 10
  /\ (update_inference_fps 10 camera_thread).2 = Returns
  /\ sampling_interval_sec (update_inference_fps 10 camera_thread).1
     = (1 / inject_Z 10)%Q
  /\ target_processing_fps (update_inference_fps 10 camera_thread).1 = 5.
Proof.
  split; [lia|].
  pose proof (update_inference_fps_effect 10 camera_thread ltac:(lia)) as H.
  cbv zeta in H. destruct H as (S & _ & _ & F & _).
  destruct S as [R I]; [reflexivity|]. by split; [|split].
Defined.

(** C10 as the claim has it fails: [update_inference_fps(10**309)] on the
    thread [MediaProcessorThread_TimeBased(0, 5, 30.0)] raises
    [OverflowError] on line 87, after line 86 has written
    [inference_target_fps]; [sampling_interval_sec] is still 1/5, not
    [1/10**309]. *)
Lemma update_inference_fps_too_large :
  let r := update_inference_fps (10 ^ 309) camera_thread in
  0 < 10 ^ 309
  /\ r.2 = OverflowError
  /\ inference_target_fps r.1 = Some (10 ^ 309)
  /\ sampling_interval_sec r.1 = (1 / inject_Z 5)%Q
  /\ ~ (sampling_interval_sec r.1 == 1 / inject_Z (10 ^ 309))%Q.
Proof.
  cbv zeta.
  assert (update_inference_fps (10 ^ 309) camera_thread
          = (set_inference_target_fps (Some (10 ^ 309)) camera_thread,
             OverflowError)) as -> by (vm_compute; reflexivity).
  split; [reflexivity|]. split; [reflexivity|]. split; [reflexivity|].
  split; [reflexivity|]. cbn [fst]. vm_compute. discriminate.
Qed.

(** ** Read failures *)

Lemma shutdown_returns s now :
  shutdown s (Some now)
  = (set_actual_processing_duration_sec (now - validation_start_time s) s,
     [Release]
     ++ (if bool_decide (detected_violation_types s ≠ ∅)
         then [Emit (signal_violation_alert
                       (final_summary
             (iteration_order s (detected_violation_types s))))]
         else [])
     ++ [Print (report (set_actual_processing_duration_sec
                          (now - validation_start_time s) s))],
     Returned).
Proof. unfold shutdown. by destruct s. Qed.

Lemma shutdown_no_reopen s lt s' out e :
  shutdown s lt = (s', out, e) ->
  (forall m, VideoCapture m ∉ out) /\ (forall n, Sleep n ∉ out).
Proof.
  unfold shutdown. destruct lt as [now|]; intros [= _ <- _].
  - destruct (bool_decide _); split; intros x; absent.
  - split; intros x; absent.
Qed.

(** C2: a failed read on a running thread. With a camera (an [int] source)
    the loop emits the error, releases the capture, sleeps one second and
    opens the source again; when the new capture is open it reports the
    reconnection and goes on with the next iteration, and when it is not it
    reports the failure and leaves the loop for the shutdown sequence. With
    a file (a [str] source) the failed read sets [video_end_reached] and
    leaves the loop at once: nothing is reopened and nothing is slept. *)
Theorem read_failure_camera_retries_file_ends self lt t rest :
  let self' := foldl apply_call self (calls t) in
  let now := current_time t in
  thread_active_status self' = true ->
  read t = None ->
  match media_source self' with
  | Camera _ =>
    if isOpened t then
      loop self lt (t :: rest)
      = (let '(s, out, e) := loop self' (Some now) rest in
         (s, (reconnect_attempt (media_source self') ++ [reconnected]) ++ out,
          e))
    else
      loop self lt (t :: rest)
      = (let '(s, out, e) := shutdown self' (Some now) in
         (s, (reconnect_attempt (media_source self') ++ [reconnection_failed])
             ++ out, e))
      /\ (loop self lt (t :: rest)).2 = Returned
  | VideoFile _ =>
    loop self lt (t :: rest)
    = shutdown (set_video_end_reached true self') (Some now)
    /\ video_end_reached (loop self lt (t :: rest)).1.1 = true
    /\ (loop self lt (t :: rest)).2 = Returned
    /\ (forall m, VideoCapture m ∉ (loop self lt (t :: rest)).1.2)
    /\ (forall n, Sleep n ∉ (loop self lt (t :: rest)).1.2)
  end.
Proof.
  intros self' now Ha Hr. cbn [loop]. fold self'. rewrite Ha.
  unfold iteration. rewrite Hr. unfold read_failed.
  destruct (media_source self') as [i|p] eqn:M; cbn [isinstance_int].
  - destruct (isOpened t); cbn [negb].
    + reflexivity.
    + split; [reflexivity|]. rewrite shutdown_returns. reflexivity.
  - subst now.
    destruct (shutdown (set_video_end_reached true self')
                (Some (current_time t))) as [[s o] e] eqn:S.
    pose proof (shutdown_no_reopen _ _ _ _ _ S) as [N1 N2].
    rewrite shutdown_returns in S. injection S as <- <- <-.
    cbn [app fst snd]. repeat split; try done.
    by destruct self'.
Qed.

Lemma read_failure_camera_retries_file_ends_witness :
  thread_active_status (foldl apply_call file_thread (calls (failing_tick 4 false)))
  = true
  /\ read (failing_tick 4 false) = None
  /\ video_end_reached (loop file_thread None [failing_tick 4 false]).1.1 = true
  /\ (loop file_thread None [failing_tick 4 false]).2 = Returned.
Proof.
  split; [reflexivity|]. split; [reflexivity|].
  pose proof (read_failure_camera_retries_file_ends
                file_thread None (failing_tick 4 false) [] eq_refl eq_refl) as H.
  split; apply H.
Defined.

(** ** The scan of the boxes *)

Lemma handle_box_unfold acc d :
  handle_box acc d
  = if violating d then
      if passes (scan_self acc) d then
        {| scan_self :=
             set_detected_violation_types
               ({[label (box d)]} ∪ detected_violation_types (scan_self acc))
               (set_violation_last_alert_time
                  (<[label (box d) := current_alert_time d]>
                     (violation_last_alert_time (scan_self acc)))
                  (scan_self acc));
           violation_detected_this_frame := true;
           violation_display_frame := violation_display_frame acc ++ [box d];
           scan_out := scan_out acc ++ [alert_of d] |}
      else
        {| scan_self := scan_self acc;
           violation_detected_this_frame := true;
           violation_display_frame := violation_display_frame acc ++ [box d];
           scan_out := scan_out acc |}
    else acc.
Proof. reflexivity. Qed.

Lemma handle_box_out acc d :
  scan_out (handle_box acc d)
  = scan_out acc
    ++ if violating d && passes (scan_self acc) d then [alert_of d] else [].
Proof.
  rewrite handle_box_unfold.
  destruct (violating d); [destruct (passes _ _)|]; simpl;
    by rewrite ?app_nil_r.
Qed.

Lemma handle_box_flag acc d :
  violation_detected_this_frame (handle_box acc d)
  = violation_detected_this_frame acc || violating d.
Proof.
  rewrite handle_box_unfold.
  destruct (violating d); [destruct (passes _ _)|]; simpl;
    by rewrite ?orb_true_r, ?orb_false_r.
Qed.

Lemma handle_box_marks acc d :
  violation_display_frame (handle_box acc d)
  = violation_display_frame acc ++ if violating d then [box d] else [].
Proof.
  rewrite handle_box_unfold.
  destruct (violating d); [destruct (passes _ _)|]; simpl;
    by rewrite ?app_nil_r.
Qed.

(** The two nested loops are one loop over all the boxes. *)
Lemma scan_concat rs acc :
  foldl handle_result acc rs = foldl handle_box acc (concat rs).
Proof.
  revert acc. induction rs as [|r rs IH]; intros acc; simpl; [done|].
  by rewrite foldl_app, IH.
Qed.

Lemma scan_flag ds acc :
  violation_detected_this_frame (foldl handle_box acc ds)
  = violation_detected_this_frame acc || existsb violating ds.
Proof.
  revert acc. induction ds as [|d ds IH]; intros acc; simpl.
  - by rewrite orb_false_r.
  - by rewrite IH, handle_box_flag, orb_assoc.
Qed.

Lemma scan_marks ds acc :
  violation_display_frame (foldl handle_box acc ds)
  = violation_display_frame acc ++ map box (List.filter violating ds).
Proof.
  revert acc. induction ds as [|d ds IH]; intros acc; simpl.
  - by rewrite app_nil_r.
  - rewrite IH, handle_box_marks, <- app_assoc. f_equal.
    by destruct (violating d).
Qed.

(** All the scan adds to the effects are alerts of violating boxes that
    passed the check in the state they were met in. *)
Lemma scan_out_alerts ds acc :
  exists hits,
    scan_out (foldl handle_box acc ds) = scan_out acc ++ map alert_of hits
    /\ Forall (fun d => violating d = true /\ d ∈ ds) hits.
Proof.
  revert acc. induction ds as [|d ds IH]; intros acc; simpl.
  - exists []. by rewrite app_nil_r.
  - destruct (IH (handle_box acc d)) as (hits & -> & F).
    rewrite handle_box_out.
    destruct (violating d && passes (scan_self acc) d) eqn:E.
    + exists (d :: hits). rewrite <- app_assoc. split; [done|].
      constructor.
      * apply andb_true_iff in E as [-> _]. split; [done|]. left.
      * eapply Forall_impl; [exact F|]. intros x [? ?]. split; [done|].
        by right.
    + exists hits. rewrite app_nil_r. split; [done|].
      eapply Forall_impl; [exact F|]. intros x [? ?]. split; [done|].
      by right.
Qed.

(** ** The violation overlay *)

Lemma detect_answers self f r0 rs :
  let sc :=
    foldl handle_box
      {| scan_self := self;
         violation_detected_this_frame := false;
         violation_display_frame := [];
         scan_out :=
           [Emit (signal_object_detection_result_stream
                    (Plot f (map box r0)))] |}
      (concat (r0 :: rs)) in
  detect self f (Some (r0 :: rs))
  = (Continue, scan_self sc,
     scan_out sc
     ++ if violation_detected_this_frame sc
        then [Emit (signal_violation_image
                      (Drawn f (violation_display_frame sc)))]
        else []).
Proof. intros sc. unfold detect. by rewrite scan_concat. Qed.

Lemma alert_of_not_image hits :
  existsb is_violation_image (map alert_of hits) = false.
Proof. by induction hits. Qed.

Lemma alert_of_is_alert hits :
  existsb is_violation_alert (map alert_of hits)
  = match hits with [] => false | _ => true end.
Proof. by destruct hits. Qed.

(** The effects of the detection branch: the detection picture, the alerts
    of some violating boxes of the frame, and the overlay when the frame
    has a violating box. *)
Lemma detect_effects self f r0 rs :
  let ds := concat (r0 :: rs) in
  exists s' hits,
    detect self f (Some (r0 :: rs))
    = (Continue, s',
       (Emit (signal_object_detection_result_stream (Plot f (map box r0)))
        :: map alert_of hits)
       ++ if existsb violating ds
          then [Emit (signal_violation_image
                        (Drawn f (map box (List.filter violating ds))))]
          else [])
    /\ Forall (fun d => violating d = true /\ d ∈ ds) hits.
Proof.
  intros ds. rewrite detect_answers. cbv zeta. fold ds.
  match goal with |- context [foldl handle_box ?a ds] => set (acc := a) end.
  destruct (scan_out_alerts ds acc) as (hits & O & F).
  exists (scan_self (foldl handle_box acc ds)), hits.
  split; [|done].
  by rewrite O, scan_flag, scan_marks.
Qed.

(** C4, as the code has it: on a sampled frame with detection enabled (and
    a detector that answers), the violation overlay is emitted exactly when
    some box of the frame carries a violation label, whether or not its
    alert was suppressed; whenever the frame produced an alert, the overlay
    is emitted as well. *)
Theorem violation_image_iff_violation_on_frame self t f r0 rs :
  read t = Some f ->
  object_detection_enabled self = true ->
  (sampling_interval_sec self
   <= current_time t - last_sample_timestamp self)%Q ->
  predict t = Some (r0 :: rs) ->
  let out := (iteration self t).2 in
  existsb is_violation_image out = existsb violating (concat (r0 :: rs))
  /\ (existsb is_violation_alert out = true ->
      existsb is_violation_image out = true).
Proof.
  intros Hr Hd Hs Hp out. subst out.
  unfold iteration. rewrite Hr. cbv zeta.
  unfold sample.
  replace (Qle_bool _ _) with true; cycle 1.
  { symmetry. apply Qle_bool_iff. by destruct self. }
  cbv zeta.
  replace (object_detection_enabled _) with true by (by destruct self).
  rewrite Hp.
  match goal with |- context [detect ?s f _] =>
    destruct (detect_effects s f r0 rs) as (s' & hits & -> & F) end.
  set (ds := concat (r0 :: rs)) in *.
  assert (existsb violating ds = false -> hits = []) as Hnone.
  { intros E. destruct hits as [|d hits]; [done|].
    apply Forall_cons in F as [[V I] _].
    assert (existsb violating ds = true) as E'.
    { apply existsb_exists. exists d. split; [|done].
      by apply list_elem_of_In. }
    congruence. }
  destruct (end_of_body s' t) as [fl s2].
  cbn [snd app existsb is_violation_image is_violation_alert orb].
  rewrite !existsb_app, alert_of_not_image, alert_of_is_alert.
  destruct (existsb violating ds); cbn.
  - done.
  - rewrite Hnone by done. done.
Qed.

Lemma violation_image_iff_violation_on_frame_witness :
  read (hit_tick 10) = Some 1%nat
  /\ object_detection_enabled detecting_thread = true
  /\ (sampling_interval_sec detecting_thread
      <= current_time (hit_tick 10)
         - last_sample_timestamp detecting_thread)%Q
  /\ predict (hit_tick 10) = Some [[mask_hit 10]]
  /\ existsb is_violation_image (iteration detecting_thread (hit_tick 10)).2
     = existsb violating (concat [[mask_hit 10]]).
Proof.
  assert (sampling_interval_sec detecting_thread
          <= current_time (hit_tick 10)
             - last_sample_timestamp detecting_thread)%Q as Hs
    by (unfold Qle; simpl; lia).
  split; [reflexivity|]. split; [reflexivity|]. split; [exact Hs|].
  split; [reflexivity|].
  exact (proj1 (violation_image_iff_violation_on_frame
                  detecting_thread (hit_tick 10) 1%nat [mask_hit 10] []
                  eq_refl eq_refl Hs eq_refl)).
Defined.

(** C4 as the claim has it fails: half a second after an alert for
    "NO-Mask", a frame whose only violating box is a "NO-Mask" box emits
    the overlay although its alert is suppressed. *)
Lemma violation_image_without_new_alert :
  let s1 := (iteration detecting_thread (hit_tick 10)).1.2 in
  let out1 := (iteration detecting_thread (hit_tick 10)).2 in
  let out2 := (iteration s1 (hit_tick (21 # 2))).2 in
  alert_texts out1 = ["[12:00:00] VIOLATION: NO-Mask"]
  /\ alert_texts out2 = []
  /\ existsb is_violation_image out2 = true.
Proof. vm_compute. done. Qed.

(** ** The suppression window *)

Lemma passes_iff self d :
  passes self d = true
  <-> (violation_suppression_sec self
       <= current_alert_time d
          - default 0%Q (violation_last_alert_time self !! label (box d)))%Q.
Proof. unfold passes. apply Qle_bool_iff. Qed.

(** Whenever a box adds an alert, the check of line 186 held for it: the
    time since the recorded alert of its label, or since clock reading 0
    when none is recorded, is at least the window. *)
Lemma alert_only_after_window acc d :
  scan_out (handle_box acc d) <> scan_out acc ->
  violating d = true
  /\ (violation_suppression_sec (scan_self acc)
      <= current_alert_time d
         - default 0%Q (violation_last_alert_time (scan_self acc)
                          !! label (box d)))%Q.
Proof.
  rewrite handle_box_out. intros H.
  destruct (violating d); [destruct (passes _ _) eqn:P|]; simpl in H;
    rewrite ?app_nil_r in H; try done.
  split; [done|]. by apply passes_iff.
Qed.

(** Three hits of one label met in a state that has no alert recorded for
    it: when the first one comes at a clock reading of at least the window,
    the first and the third raise an alert and the second does not. *)
Lemma three_hits_two_alerts acc d0 d1 d2 :
  let self := scan_self acc in
  let w := violation_suppression_sec self in
  violating d0 = true ->
  label (box d1) = label (box d0) ->
  label (box d2) = label (box d0) ->
  violation_last_alert_time self !! label (box d0) = None ->
  (w <= current_alert_time d0)%Q ->
  (current_alert_time d1 - current_alert_time d0 < w)%Q ->
  (w <= current_alert_time d2 - current_alert_time d0)%Q ->
  scan_out (foldl handle_box acc [d0; d1; d2])
  = scan_out acc ++ [alert_of d0; alert_of d2].
Proof.
  intros self w V0 L1 L2 Hnone H0 H1 H2.
  assert (violating d1 = true) as V1 by (unfold violating; by rewrite L1).
  assert (violating d2 = true) as V2 by (unfold violating; by rewrite L2).
  cbn [foldl].
  (* the first hit *)
  assert (passes self d0 = true) as P0.
  { apply passes_iff. rewrite Hnone. cbn [default]. unfold id. fold w. lra. }
  set (acc0 := handle_box acc d0).
  assert (scan_out acc0 = scan_out acc ++ [alert_of d0]) as O0.
  { unfold acc0. rewrite handle_box_out. fold self. by rewrite V0, P0. }
  assert (violation_last_alert_time (scan_self acc0) !! label (box d0)
          = Some (current_alert_time d0)
          /\ violation_suppression_sec (scan_self acc0) = w) as [M0 W0].
  { unfold acc0. rewrite handle_box_unfold. fold self. rewrite V0, P0.
    cbn [scan_self]. subst w. destruct self; cbn.
    by rewrite lookup_insert_eq. }
  (* the second hit *)
  assert (passes (scan_self acc0) d1 = false) as P1.
  { apply not_true_is_false. rewrite passes_iff, L1, M0, W0. cbn [default].
    unfold id. lra. }
  set (acc1 := handle_box acc0 d1).
  assert (scan_self acc1 = scan_self acc0 /\ scan_out acc1 = scan_out acc0)
    as [S1 O1].
  { unfold acc1. rewrite handle_box_unfold. by rewrite V1, P1. }
  (* the third hit *)
  assert (passes (scan_self acc1) d2 = true) as P2.
  { rewrite S1. apply passes_iff. rewrite L2, M0, W0. cbn [default]. by unfold id. }
  rewrite handle_box_out. fold acc1. rewrite V2, P2, O1, O0. cbn [andb].
  by rewrite <- app_assoc.
Qed.

Lemma three_hits_two_alerts_example :
  alert_texts
    (scan_out
       (foldl handle_box
          {| scan_self := detecting_thread;
             violation_detected_this_frame := false;
             violation_display_frame := [];
             scan_out := [] |}
          [mask_hit 5; mask_hit (11 # 2); mask_hit 6]))
  = ["[12:00:00] VIOLATION: NO-Mask"; "[12:00:00] VIOLATION: NO-Mask"].
Proof.
  rewrite three_hits_two_alerts; try reflexivity; qcompare.
Qed.

(** C3, at an input where the code departs from it: a session whose three
    "NO-Mask" hits come at clock readings 0.5, 0.7 and 1.6 (so that
    [t1 - t0 < 1] and [t2 - t0 >= 1]) emits one alert, not two: the first
    hit is measured against the default last-alert time 0 and is itself
    suppressed. *)
Theorem three_hits_one_alert_when_clock_starts_low :
  let t0 := 1 # 2 in
  let t1 := 7 # 10 in
  let t2 := 8 # 5 in
  (t0 < t1)%Q /\ (t1 < t2)%Q /\ (t1 - t0 < 1)%Q /\ (1 <= t2 - t0)%Q
  /\ violation_suppression_sec detecting_thread = 1%Q
  /\ alert_texts
       (loop detecting_thread None [hit_tick t0; hit_tick t1; hit_tick t2]).1.2
     = ["[12:00:00] VIOLATION: NO-Mask"].
Proof.
  cbv zeta.
  repeat split; qcompare.
Qed.

(** C8, at an input where the code departs from it: with no entry for
    "NO-Mask" in the suppression map, the first "NO-Mask" hit of the
    session, at clock reading 0.5, raises no alert and records nothing:
    [get(label, 0)] makes it half a second after an alert that never
    was. *)
Theorem first_hit_suppressed_when_clock_starts_low :
  violation_last_alert_time detecting_thread !! "NO-Mask" = None
  /\ violating (mask_hit (1 # 2)) = true
  /\ alert_texts (iteration detecting_thread (hit_tick (1 # 2))).2 = []
  /\ violation_last_alert_time
       (iteration detecting_thread (hit_tick (1 # 2))).1.2 !! "NO-Mask"
     = None.
Proof. vm_compute. done. Qed.

(** ** Reconnection *)

Lemma sample_raw_count self f t flow s' out :
  sample self f t = (flow, s', out) ->
  raw_frame_count_total s' = raw_frame_count_total self.
Proof.
  intros S.
  destruct (Qle_bool (sampling_interval_sec self)
              (current_time t - last_sample_timestamp self)) eqn:E.
  - by destruct (sample_due _ _ _ _ _ _ E S) as (_ & _ & ? & _).
  - rewrite (sample_not_due _ _ _ E) in S. by injection S as _ <- _.
Qed.

(** An iteration that has read a frame emits it on the raw stream first and
    counts it. *)
Lemma iteration_counts_frame self t f :
  read t = Some f ->
  exists flow s' out,
    iteration self t = (flow, s', Emit (signal_raw_stream (Bgr f)) :: out)
    /\ raw_frame_count_total s' = raw_frame_count_total self + 1.
Proof.
  intros Hr.
  destruct (iteration self t) as [[fl s'] out] eqn:I.
  destruct (iteration_after_sample _ _ _ _ _ _ Hr I)
    as (fl1 & s1 & o1 & S & -> & _ & _ & R).
  exists fl, s', o1. split; [done|].
  rewrite R, (sample_raw_count _ _ _ _ _ _ S). by destruct self.
Qed.

(** Any number of failed reads, each followed by a successful reopen, keep
    a camera thread in the loop, leave its attributes as they were and emit
    one reconnection block each. *)
Lemma camera_failures_reconnect fails self lt rest :
  isinstance_int (media_source self) = true ->
  thread_active_status self = true ->
  Forall recovered_failure fails ->
  loop self lt (fails ++ rest)
  = (let '(s, out, e) := loop self (last_time_after lt fails) rest in
     (s,
      concat (map (fun _ => reconnect_attempt (media_source self)
                            ++ [reconnected]) fails)
      ++ out, e)).
Proof.
  intros Hc Ha. revert lt.
  induction fails as [|t fails IH]; intros lt F.
  - cbn. by destruct (loop self lt rest) as [[? ?] ?].
  - apply Forall_cons in F as [(Hcalls & Hr & Ho) F].
    cbn [app loop]. rewrite Hcalls. cbn [foldl]. rewrite Ha.
    unfold iteration. rewrite Hr. unfold read_failed. rewrite Hc, Ho.
    cbn [negb]. rewrite IH by done.
    cbn [last_time_after foldl map concat].
    destruct (loop self _ rest) as [[s o] e].
    by rewrite <- !app_assoc.
Qed.

(** C5, as the code has it: three consecutive failed reads of a camera,
    each followed by a successful reopen, leave the thread in the loop with
    its attributes untouched and emit three reconnected events, one per
    failure; the successful read that follows is emitted on the raw stream
    and counted. *)
Theorem three_failures_three_reconnected self lt t1 t2 t3 t4 rest f :
  isinstance_int (media_source self) = true ->
  thread_active_status self = true ->
  recovered_failure t1 -> recovered_failure t2 -> recovered_failure t3 ->
  calls t4 = [] -> read t4 = Some f ->
  let block := reconnect_attempt (media_source self) ++ [reconnected] in
  loop self lt [t1; t2; t3] = (self, block ++ block ++ block, InLoop)
  /\ length (List.filter is_reconnected (block ++ block ++ block)) = 3%nat
  /\ exists flow s4 out4,
       iteration self t4
       = (flow, s4, Emit (signal_raw_stream (Bgr f)) :: out4)
       /\ raw_frame_count_total s4 = raw_frame_count_total self + 1
       /\ (loop self lt (t1 :: t2 :: t3 :: t4 :: rest)).1.2
          = (block ++ block ++ block)
            ++ (loop self (Some (current_time t3)) (t4 :: rest)).1.2.
Proof.
  intros Hc Ha F1 F2 F3 Hcalls Hr block.
  assert (Forall recovered_failure [t1; t2; t3]) as F
    by (repeat (apply Forall_cons; split; [assumption|]); constructor).
  split; [|split].
  - pose proof (camera_failures_reconnect [t1; t2; t3] self lt [] Hc Ha F)
      as L.
    cbn [app] in L. rewrite L. reflexivity.
  - reflexivity.
  - destruct (iteration_counts_frame self t4 f Hr) as (fl & s4 & o4 & I & R).
    exists fl, s4, o4. split; [done|]. split; [done|].
    pose proof (camera_failures_reconnect [t1; t2; t3] self lt (t4 :: rest)
                  Hc Ha F) as L.
    cbn [app] in L. rewrite L. cbn [last_time_after foldl map concat].
    destruct (loop self _ (t4 :: rest)) as [[s o] e]. cbn [fst snd].
    by rewrite app_nil_r, <- !app_assoc.
Qed.

Lemma three_failures_three_reconnected_witness :
  let t := failing_tick in
  isinstance_int (media_source camera_thread) = true
  /\ thread_active_status camera_thread = true
  /\ recovered_failure (t 1%Q true)
  /\ loop camera_thread None [t 1%Q true; t 2%Q true; t 3%Q true]
     = (camera_thread,
        (reconnect_attempt (Camera 0) ++ [reconnected])
        ++ (reconnect_attempt (Camera 0) ++ [reconnected])
        ++ (reconnect_attempt (Camera 0) ++ [reconnected]), InLoop).
Proof.
  intros t.
  assert (forall q, recovered_failure (t q true)) as F by (by intros q).
  split; [reflexivity|]. split; [reflexivity|]. split; [apply F|].
  exact (proj1 (three_failures_three_reconnected
                  camera_thread None (t 1%Q true) (t 2%Q true) (t 3%Q true)
                  quiet_tick [] 1%nat eq_refl eq_refl (F _) (F _) (F _)
                  eq_refl eq_refl)).
Defined.

(** C5 as the claim has it fails: after three failed reads, each followed
    by a successful reopen, and one successful read, the thread is still in
    the loop and has counted the frame, but it has emitted three
    reconnected events, not one. *)
Lemma three_failures_not_one_reconnected :
  let r :=
    loop camera_thread None
      [failing_tick 1 true; failing_tick 2 true; failing_tick 3 true;
       {| calls := []; read := Some 1%nat; current_time := 4;
          isOpened := true; predict := Some [[]] |}] in
  r.2 = InLoop
  /\ raw_frame_count_total r.1.1 = 1
  /\ length (List.filter is_reconnected r.1.2) = 3%nat
  /\ length (List.filter is_reconnected r.1.2) <> 1%nat.
Proof. vm_compute. repeat split. discriminate. Qed.

(** ** The shape of a run *)

Lemma alert_of_in_loop d : in_loop_effect (alert_of d) = true.
Proof. reflexivity. Qed.

Lemma detect_in_loop self f results :
  Forall (fun e => in_loop_effect e = true) (detect self f results).2.
Proof.
  destruct results as [[|r0 rs]|]; try by constructor.
  destruct (detect_effects self f r0 rs) as (s' & hits & -> & _).
  cbn [snd]. apply Forall_app. split.
  - constructor; [done|]. apply Forall_forall. intros e He.
    apply list_elem_of_In, in_map_iff in He as (d & <- & _).
    apply alert_of_in_loop.
  - destruct (existsb _ _); by repeat constructor.
Qed.

Lemma sample_in_loop self f t :
  Forall (fun e => in_loop_effect e = true) (sample self f t).2.
Proof.
  unfold sample. destruct (Qle_bool _ _); [|by constructor]. cbv zeta.
  match goal with |- context [if ?b then _ else _] => destruct b end;
    [|by repeat constructor].
  match goal with |- context [detect ?s f ?r] =>
    pose proof (detect_in_loop s f r) as D;
    destruct (detect s f r) as [[fl s1] o1] end.
  cbn [snd] in *. by constructor.
Qed.

Lemma iteration_in_loop self t :
  Forall (fun e => in_loop_effect e = true) (iteration self t).2.
Proof.
  unfold iteration. destruct (read t) as [f|].
  - cbv zeta.
    pose proof (sample_in_loop (count_raw_frame self) f t) as S.
    destruct (sample _ f t) as [[fl s1] o1]. cbn [snd] in S.
    destruct fl; [destruct (end_of_body s1 t)|..]; by constructor.
  - unfold read_failed.
    destruct (isinstance_int _); [destruct (negb _)|];
      by repeat constructor.
Qed.

Lemma shutdown_effects_eq s now :
  shutdown s (Some now)
  = (let s' :=
       set_actual_processing_duration_sec (now - validation_start_time s) s in
     (s', shutdown_effects s', Returned)).
Proof. rewrite shutdown_returns. unfold shutdown_effects. by destruct s. Qed.

(** The effects of the loop are those of its iterations, followed, when
    [run] returns, by the shutdown sequence computed on the final state.
    When it does not return, at most a lone [Release] follows (the stop
    asked for before the first iteration). *)
Lemma loop_shape ticks self lt s out e :
  loop self lt ticks = (s, out, e) ->
  exists pre,
    Forall (fun e => in_loop_effect e = true) pre
    /\ match e with
       | Returned => out = pre ++ shutdown_effects s
       | _ => out = pre \/ out = pre ++ [Release]
       end.
Proof.
  revert self lt s out e.
  induction ticks as [|t ticks IH]; intros self lt s out e; cbn [loop].
  - intros [= <- <- <-]. exists []. split; [constructor|by left].
  - set (self' := foldl apply_call self (calls t)).
    destruct (thread_active_status self').
    + pose proof (iteration_in_loop self' t) as I.
      destruct (iteration self' t) as [[fl s1] o1]. cbn [snd] in I.
      destruct fl.
      * destruct (loop s1 (Some (current_time t)) ticks)
          as [[s2 o2] e2] eqn:L.
        apply IH in L as (pre & F & L). intros [= <- <- <-].
        exists (o1 ++ pre). split; [by apply Forall_app|].
        destruct e2; rewrite <- ?app_assoc;
          try (destruct L as [->| ->]; [by left|by right]).
        by rewrite L.
      * rewrite shutdown_effects_eq. cbv zeta. intros [= <- <- <-].
        by exists o1.
      * intros [= <- <- <-]. exists o1. split; [done|by left].
    + destruct lt as [now|].
      * rewrite shutdown_effects_eq. cbv zeta. intros [= <- <- <-].
        exists []. split; [constructor|done].
      * intros [= <- <- <-]. exists []. split; [constructor|by right].
Qed.

(** ** The report *)

Lemma loop_returned_prints ticks self lt s out :
  loop self lt ticks = (s, out, Returned) ->
  exists pre, out = pre ++ [Print (report s)] /\ Release ∈ pre.
Proof.
  intros L. apply loop_shape in L as (pre & _ & ->).
  unfold shutdown_effects.
  exists (pre ++ [Release]
          ++ if bool_decide (detected_violation_types s ≠ ∅)
             then [Emit (signal_violation_alert
                           (final_summary
                              (iteration_order s
                                 (detected_violation_types s))))]
             else []).
  split; [by rewrite <- !app_assoc|].
  apply elem_of_app. right. apply elem_of_app. left. by left.
Qed.

(** [video_end_reached] is assigned on line 131 and nowhere else. *)
Lemma apply_calls_video_end cs s :
  video_end_reached (foldl apply_call s cs) = video_end_reached s.
Proof.
  revert s. induction cs as [|c cs IH]; intros s; [done|].
  cbn [foldl]. rewrite IH.
  destruct c as [n|b|]; cbn; [unfold update_inference_fps;
    destruct (0 <? n), (int_too_large n)|..]; by destruct s.
Qed.

Lemma sample_video_end self f t flow s' out :
  sample self f t = (flow, s', out) ->
  video_end_reached s' = video_end_reached self.
Proof.
  unfold sample. destruct (Qle_bool _ _); [|by intros [= _ <- _]].
  cbv zeta.
  match goal with |- context [detect ?s ?g ?r] =>
    destruct (detect s g r) as [[fl s1] o1] eqn:D end.
  apply detect_alerts_only in D. unfold alerts_only in D.
  match goal with |- context [if ?b then _ else _] => destruct b end.
  - intros [= _ <- _]. rewrite D. by destruct self.
  - intros [= _ <- _]. by destruct self.
Qed.

(** An iteration sets [video_end_reached] exactly when it leaves the loop
    on a failed read of a source that is not a camera. *)
Lemma iteration_video_end self t flow s' out :
  iteration self t = (flow, s', out) ->
  video_end_reached s'
  = match flow, read t with
    | Break, None => negb (isinstance_int (media_source self))
                     || video_end_reached self
    | _, _ => video_end_reached self
    end.
Proof.
  unfold iteration. destruct (read t) as [f|].
  - cbv zeta.
    destruct (sample (count_raw_frame self) f t) as [[fl s1] o1] eqn:S.
    apply sample_video_end in S.
    assert (video_end_reached s1 = video_end_reached self) as E
      by (rewrite S; by destruct self).
    assert (video_end_reached (end_of_body s1 t).2 = video_end_reached s1)
      as B.
    { unfold end_of_body, fps_window. cbv zeta.
      destruct (Qle_bool 1 _); destruct (Qle_bool _ _); by destruct s1. }
    destruct fl.
    + destruct (end_of_body s1 t) as [fl s2]. cbn [snd] in B.
      intros [= <- <- _]. rewrite B, E. by destruct fl.
    + by intros [= <- <- _].
    + by intros [= <- <- _].
  - unfold read_failed.
    destruct (isinstance_int (media_source self));
      [destruct (negb (isOpened t))|]; intros [= <- <- _]; cbn [negb orb];
      try done.
    by destruct self.
Qed.

(** A loop that returns was left at one of its ticks, up to which it was
    running; it ends with [video_end_reached] set exactly when that tick
    is the end of the stream. *)
Lemma loop_video_end ticks self lt s out :
  video_end_reached self = false ->
  loop self lt ticks = (s, out, Returned) ->
  exists pre t rest s1 o1,
    ticks = pre ++ t :: rest
    /\ loop self lt pre = (s1, o1, InLoop)
    /\ video_end_reached s = end_of_stream s1 t.
Proof.
  revert self lt s out.
  induction ticks as [|t ticks IH]; intros self lt s out V; cbn [loop];
    [done|].
  pose proof (apply_calls_video_end (calls t) self) as C.
  pose proof (apply_calls_configuration (calls t) self) as (M & _).
  unfold end_of_stream.
  destruct (thread_active_status (foldl apply_call self (calls t))) eqn:A.
  - destruct (iteration _ t) as [[fl s1] o1] eqn:I.
    pose proof (iteration_video_end _ _ _ _ _ I) as E.
    rewrite C, V in E. destruct fl.
    + destruct (loop s1 (Some (current_time t)) ticks)
        as [[s2 o2] e2] eqn:L.
      intros [= <- _ ->].
      apply IH in L as (pre & t' & rest & s3 & o3 & -> & L & F); [|done].
      exists (t :: pre), t', rest, s3, (o1 ++ o3).
      split; [done|]. split; [|done].
      cbn [loop]. by rewrite A, I, L.
    + rewrite shutdown_returns. intros [= <- _].
      exists [], t, ticks, self, []. split; [done|]. split; [done|].
      cbv zeta. rewrite A.
      replace (video_end_reached (set_actual_processing_duration_sec _ s1))
        with (video_end_reached s1) by (by destruct s1).
      rewrite E. destruct (read t); cbn [andb]; [done|].
      by rewrite orb_false_r.
    + done.
  - destruct lt as [now|]; [|done]. rewrite shutdown_returns.
    intros [= <- _].
    exists [], t, ticks, self, []. split; [done|]. split; [done|].
    cbv zeta. rewrite A. cbn [andb].
    replace (video_end_reached (set_actual_processing_duration_sec _ _))
      with (video_end_reached (foldl apply_call self (calls t)))
      by (by destruct (foldl apply_call self (calls t))).
    by rewrite C.
Qed.

Lemma prepare_video_end self st :
  video_end_reached (prepare self st) = video_end_reached self.
Proof.
  unfold prepare.
  match goal with |- context [if ?b then _ else _] => destruct b end;
    by destruct self.
Qed.

Lemma apply_calls_counters cs s :
  raw_frame_count_total (foldl apply_call s cs) = raw_frame_count_total s
  /\ sampled_frame_count_total (foldl apply_call s cs)
     = sampled_frame_count_total s.
Proof.
  revert s. induction cs as [|c cs IH]; intros s; [done|].
  cbn [foldl]. destruct (IH (apply_call s c)) as [-> ->].
  destruct c as [n|b|]; cbn; [unfold update_inference_fps;
    destruct (0 <? n), (int_too_large n)|..]; by destruct s.
Qed.

(** A loop that is still running goes on with the ticks that follow. *)
Lemma loop_app pre rest self lt s1 o1 :
  loop self lt pre = (s1, o1, InLoop) ->
  loop self lt (pre ++ rest)
  = (let '(s, out, e) := loop s1 (last_time_after lt pre) rest in
     (s, o1 ++ out, e)).
Proof.
  revert self lt s1 o1.
  induction pre as [|t pre IH]; intros self lt s1 o1; cbn [loop app].
  - intros [= <- <-]. cbn. by destruct (loop self lt rest) as [[? ?] ?].
  - destruct (thread_active_status _).
    + destruct (iteration _ t) as [[fl s2] o2]. destruct fl.
      * destruct (loop s2 (Some (current_time t)) pre)
          as [[s3 o3] e3] eqn:L.
        intros [= <- <- ->]. rewrite (IH _ _ _ _ L).
        change (last_time_after lt (t :: pre))
          with (last_time_after (Some (current_time t)) pre).
        destruct (loop s3 _ rest) as [[? ?] ?]. by rewrite app_assoc.
      * by rewrite shutdown_returns.
      * done.
    + destruct lt; [by rewrite shutdown_returns|done].
Qed.

(** C6: take a thread whose [video_end_reached] is not set, as in a new
    thread. When a session that is still running comes to the end of the
    stream (a failed read of a file), [run] returns after printing a report
    with drop ratio 0 and the termination line "Video file ended",
    whatever the two totals are. And every session that returns was left
    at one tick: when that tick is the end of the stream the report is as
    said, and when the loop was left in another way the drop ratio is
    [1 - sampled/raw] for [raw > 0] and 0 otherwise, under the line
    "Validation time completed". *)
Theorem end_of_stream_report self st :
  video_end_reached self = false ->
  (forall pre t rest s1 o1,
     run self st pre = (s1, o1, InLoop) ->
     end_of_stream s1 t = true ->
     exists s out1,
       run self st (pre ++ t :: rest)
       = (s, out1 ++ [Print (report s)], Returned)
       /\ total_raw_frames (report s) = raw_frame_count_total s1
       /\ total_sampled_frames (report s) = sampled_frame_count_total s1
       /\ frame_drop_ratio (report s) = 0%Q
       /\ termination_reason (report s)
          = "Termination reason  : Video file ended")
  /\ (forall ticks s out,
        run self st ticks = (s, out, Returned) ->
        exists pre t rest s1 o1 out1,
          ticks = pre ++ t :: rest
          /\ run self st pre = (s1, o1, InLoop)
          /\ out = out1 ++ [Print (report s)]
          /\ if end_of_stream s1 t
             then frame_drop_ratio (report s) = 0%Q
                  /\ termination_reason (report s)
                     = "Termination reason  : Video file ended"
             else (0 < total_raw_frames (report s) ->
                   frame_drop_ratio (report s)
                   = (1 - inject_Z (total_sampled_frames (report s))
                          / inject_Z (total_raw_frames (report s)))%Q)
                  /\ (total_raw_frames (report s) <= 0 ->
                      frame_drop_ratio (report s) = 0%Q)
                  /\ termination_reason (report s)
                     = "Termination reason  : Validation time completed").
Proof.
  intros V. split.
  - intros pre t rest s1 o1. unfold run. cbv zeta.
    destruct (loop (prepare self st) None pre) as [[s' o'] e'] eqn:L.
    intros [= -> <- ->]. rewrite (loop_app _ (t :: rest) _ _ _ _ L).
    unfold end_of_stream. cbv zeta. intros E.
    apply andb_true_iff in E as [E Hc]. apply andb_true_iff in E as [Ha Hr].
    cbn [loop]. rewrite Ha. unfold iteration.
    destruct (read t); [done|]. unfold read_failed.
    apply negb_true_iff in Hc. rewrite Hc, shutdown_effects_eq. cbv zeta.
    pose proof (apply_calls_counters (calls t) s1) as [Rw Sm].
    set (s2 := foldl apply_call s1 (calls t)) in *.
    clearbody s2.
    match goal with |- context [shutdown_effects ?s] =>
      exists s,
        (VideoCapture (media_source self) :: o'
         ++ [Release]
         ++ if bool_decide (detected_violation_types s ≠ ∅)
            then [Emit (signal_violation_alert
                          (final_summary
                             (iteration_order s
                                (detected_violation_types s))))]
            else [])
    end.
    split.
    { unfold shutdown_effects. cbn [app]. by rewrite <- !app_assoc. }
    rewrite <- Rw, <- Sm. by destruct s2.
  - intros ticks s out. unfold run. cbv zeta.
    destruct (loop (prepare self st) None ticks) as [[s' o'] e'] eqn:L.
    intros [= -> <- ->].
    pose proof (loop_returned_prints _ _ _ _ _ L) as (out1 & -> & _).
    apply loop_video_end in L as (pre & t & rest & s1 & o1 & -> & L & F);
      [|by rewrite prepare_video_end].
    exists pre, t, rest, s1, (VideoCapture (media_source self) :: o1),
      (VideoCapture (media_source self) :: out1).
    split; [done|]. split; [by rewrite L|]. split; [done|].
    unfold report, drop_ratio.
    cbn [frame_drop_ratio termination_reason total_raw_frames
         total_sampled_frames].
    rewrite F. destruct (end_of_stream s1 t); [done|].
    split; [|split; [|done]].
    + intros Hpos.
      by destruct (Z.ltb_spec 0 (raw_frame_count_total s)); [|lia].
    + intros Hneg.
      by destruct (Z.ltb_spec 0 (raw_frame_count_total s)); [lia|].
Qed.

Lemma end_of_stream_report_witness :
  let r := run file_thread clock_from_zero short_file in
  video_end_reached file_thread = false
  /\ r.2 = Returned
  /\ total_sampled_frames (report r.1.1) < total_raw_frames (report r.1.1)
  /\ exists pre t rest s1 o1 out1,
       short_file = pre ++ t :: rest
       /\ run file_thread clock_from_zero pre = (s1, o1, InLoop)
       /\ r.1.2 = out1 ++ [Print (report r.1.1)]
       /\ if end_of_stream s1 t
          then frame_drop_ratio (report r.1.1) = 0%Q
               /\ termination_reason (report r.1.1)
                  = "Termination reason  : Video file ended"
          else (0 < total_raw_frames (report r.1.1) ->
                frame_drop_ratio (report r.1.1)
                = (1 - inject_Z (total_sampled_frames (report r.1.1))
                       / inject_Z (total_raw_frames (report r.1.1)))%Q)
               /\ (total_raw_frames (report r.1.1) <= 0 ->
                   frame_drop_ratio (report r.1.1) = 0%Q)
               /\ termination_reason (report r.1.1)
                  = "Termination reason  : Validation time completed".
Proof.
  intros r.
  assert (video_end_reached file_thread = false) as V by reflexivity.
  assert (r = (r.1.1, r.1.2, Returned)) as R by (vm_compute; reflexivity).
  split; [exact V|]. split; [by rewrite R|].
  split; [vm_compute; reflexivity|].
  exact (proj2 (end_of_stream_report file_thread clock_from_zero V)
           short_file r.1.1 r.1.2 R).
Defined.

(** A file of three frames read at 10 frames per second and sampled at 5:
    the end of the stream reports a drop ratio of 0 although only one of
    the three frames was sampled. *)
Example end_of_stream_with_unsampled_frames :
  let r := run file_thread clock_from_zero short_file in
  r.2 = Returned
  /\ raw_frame_count_total r.1.1 = 3
  /\ sampled_frame_count_total r.1.1 = 1
  /\ last r.1.2 = Some (Print (report r.1.1))
  /\ frame_drop_ratio (report r.1.1) = 0%Q
  /\ termination_reason (report r.1.1)
     = "Termination reason  : Video file ended".
Proof. vm_compute. done. Qed.

(** The same three frames with the thread stopped from the GUI instead:
    the report now shows the two frames out of three that were not
    sampled. *)
Example stop_with_unsampled_frames :
  let r := run file_thread clock_from_zero stopped_file in
  r.2 = Returned
  /\ raw_frame_count_total r.1.1 = 3
  /\ sampled_frame_count_total r.1.1 = 1
  /\ (frame_drop_ratio (report r.1.1) == 2 # 3)%Q
  /\ termination_reason (report r.1.1)
     = "Termination reason  : Validation time completed".
Proof. vm_compute. done. Qed.

(** ** The final summary *)

Lemma in_loop_no_summary pre :
  Forall (fun e => in_loop_effect e = true) pre ->
  List.filter is_final_summary pre = [].
Proof.
  induction 1 as [|e pre He _ IH]; [done|].
  cbn [List.filter]. rewrite IH.
  unfold in_loop_effect in He. apply andb_true_iff in He as [He _].
  by destruct (is_final_summary e).
Qed.

Lemma final_summary_is_summary T :
  is_final_summary (Emit (signal_violation_alert (final_summary T))) = true.
Proof. reflexivity. Qed.

Lemma shutdown_effects_summaries s :
  List.filter is_final_summary (shutdown_effects s)
  = if bool_decide (detected_violation_types s ≠ ∅)
    then [Emit (signal_violation_alert
                  (final_summary
             (iteration_order s (detected_violation_types s))))]
    else [].
Proof. unfold shutdown_effects. by destruct (bool_decide _). Qed.

(** The final summaries among the effects of a loop. *)
Lemma loop_summaries ticks self lt s out e :
  loop self lt ticks = (s, out, e) ->
  List.filter is_final_summary out
  = match e with
    | Returned =>
      if bool_decide (detected_violation_types s ≠ ∅)
      then [Emit (signal_violation_alert
                    (final_summary
             (iteration_order s (detected_violation_types s))))]
      else []
    | _ => []
    end.
Proof.
  intros L. apply loop_shape in L as (pre & F & L).
  apply in_loop_no_summary in F.
  destruct e.
  - destruct L as [->| ->]; [done|]. by rewrite List.filter_app, F.
  - subst out. by rewrite List.filter_app, F, shutdown_effects_summaries.
  - destruct L as [->| ->]; [done|]. by rewrite List.filter_app, F.
Qed.

(** ** Leaving the loop *)

Lemma shutdown_runs_shutdown s now : runs_shutdown (shutdown s (Some now)).
Proof.
  rewrite shutdown_effects_eq. cbv zeta. split; [done|]. by exists [].
Qed.

(** Leaving the body through [break] leads to the shutdown sequence. *)
Lemma break_runs_shutdown self lt t rest s1 o1 :
  let self' := foldl apply_call self (calls t) in
  thread_active_status self' = true ->
  iteration self' t = (Break, s1, o1) ->
  runs_shutdown (loop self lt (t :: rest)).
Proof.
  intros self' Ha I. cbn [loop]. fold self'. rewrite Ha, I.
  rewrite shutdown_effects_eq. cbv zeta. split; [done|]. by exists o1.
Qed.

Lemma sample_validation self f t flow s' out :
  sample self f t = (flow, s', out) ->
  validation_duration_sec s' = validation_duration_sec self
  /\ validation_start_time s' = validation_start_time self.
Proof.
  unfold sample. destruct (Qle_bool _ _); cbv zeta.
  - match goal with |- context [detect ?a ?g ?r] =>
      destruct (detect a g r) as [[fl s1] o1] eqn:D end.
    apply detect_alerts_only in D.
    match goal with |- context [if ?b then _ else _] => destruct b end.
    + intros [= _ <- _]. unfold alerts_only in D. rewrite D.
      by destruct self.
    + intros [= _ <- _]. by destruct self.
  - by intros [= _ <- _].
Qed.

Lemma fps_window_validation s t :
  validation_duration_sec (fps_window s t) = validation_duration_sec s
  /\ validation_start_time (fps_window s t) = validation_start_time s.
Proof. unfold fps_window. destruct (Qle_bool _ _); by destruct s. Qed.

(** An iteration that has read a frame, does not raise, and finds the
    validation time used up, breaks. *)
Lemma validation_timeout_breaks self t f :
  read t = Some f ->
  (iteration self t).1.1 <> Raise ->
  validation_elapsed self t ->
  (iteration self t).1.1 = Break.
Proof.
  unfold validation_elapsed, iteration. intros -> Hn Hv. revert Hn. cbv zeta.
  destruct (sample (count_raw_frame self) f t) as [[fl s1] o1] eqn:S.
  apply sample_validation in S as [D V].
  replace (validation_duration_sec (count_raw_frame self))
    with (validation_duration_sec self) in D by (by destruct self).
  replace (validation_start_time (count_raw_frame self))
    with (validation_start_time self) in V by (by destruct self).
  destruct fl; cbn [fst]; try done. intros _.
  unfold end_of_body. cbv zeta.
  destruct (fps_window_validation s1 t) as [-> ->]. rewrite D, V.
  by apply Qle_bool_iff in Hv as ->.
Qed.

(** C9, as the code has it. After at least one iteration, a stop request,
    the validation timeout, the end of a file and a failed reconnection all
    leave the loop for the same shutdown sequence: [run] returns, having
    released the capture and printed the report last. A detector call that
    raises on a sampled frame leaves [run] by the exception: it ends
    [Raised], and neither a release nor a report follows the frame. *)
Theorem normal_exits_run_shutdown self lt t rest :
  let self' := foldl apply_call self (calls t) in
  let r := loop self lt (t :: rest) in
  (* explicit stop request *)
  (thread_active_status self' = false -> is_Some lt -> runs_shutdown r)
  (* validation timeout *)
  /\ (thread_active_status self' = true -> is_Some (read t) ->
      (iteration self' t).1.1 <> Raise -> validation_elapsed self' t ->
      runs_shutdown r)
  (* end of stream *)
  /\ (thread_active_status self' = true -> read t = None ->
      isinstance_int (media_source self') = false -> runs_shutdown r)
  (* fatal reconnection failure *)
  /\ (thread_active_status self' = true -> read t = None ->
      isinstance_int (media_source self') = true -> isOpened t = false ->
      runs_shutdown r)
  (* failing detection call *)
  /\ (thread_active_status self' = true -> is_Some (read t) ->
      object_detection_enabled self' = true ->
      (sampling_interval_sec self'
       <= current_time t - last_sample_timestamp self')%Q ->
      predict t = None ->
      r.2 = Raised /\ (Release ∉ r.1.2) /\ (forall p, Print p ∉ r.1.2)).
Proof.
  intros self' r. subst r.
  split; [|split; [|split; [|split]]].
  - intros Ha [now ->]. cbn [loop]. fold self'. rewrite Ha.
    apply shutdown_runs_shutdown.
  - intros Ha [f Hr] Hn Hv.
    pose proof (validation_timeout_breaks self' t f Hr Hn Hv) as B.
    destruct (iteration self' t) as [[fl s1] o1] eqn:I. cbn [fst] in B.
    subst fl. by eapply break_runs_shutdown.
  - intros Ha Hr Hf.
    eapply (break_runs_shutdown self lt t rest); [exact Ha|].
    fold self'. unfold iteration, read_failed. by rewrite Hr, Hf.
  - intros Ha Hr Hc Ho.
    eapply (break_runs_shutdown self lt t rest); [exact Ha|].
    fold self'. unfold iteration, read_failed. by rewrite Hr, Hc, Ho.
  - intros Ha [f Hr] Hd Hs Hp.
    cbn [loop]. fold self'. rewrite Ha.
    unfold iteration. rewrite Hr. cbv zeta. unfold sample.
    replace (Qle_bool _ _) with true; cycle 1.
    { symmetry. apply Qle_bool_iff. by destruct self'. }
    cbv zeta.
    replace (object_detection_enabled _) with true by (by destruct self').
    rewrite Hp. cbn.
    split; [done|]. split; [absent|]. intros p. absent.
Qed.
Lemma normal_exits_run_shutdown_witness :
  thread_active_status
    (foldl apply_call file_thread (calls (failing_tick 4 false))) = true
  /\ read (failing_tick 4 false) = None
  /\ isinstance_int
       (media_source
          (foldl apply_call file_thread (calls (failing_tick 4 false))))
     = false
  /\ runs_shutdown (loop file_thread None [failing_tick 4 false]).
Proof.
  split; [reflexivity|]. split; [reflexivity|]. split; [reflexivity|].
  exact (proj1 (proj2 (proj2 (normal_exits_run_shutdown
                                file_thread None (failing_tick 4 false) [])))
           eq_refl eq_refl eq_refl).
Defined.

(** C9 as the claim has it fails: when the detector raises on the first
    sampled frame, [run] is left by the exception after the raw and the
    sampled signal; the capture is not released and no report is
    printed. *)
Lemma failing_detector_skips_release_and_report :
  let r := run detecting_thread clock_from_zero [raising_tick (1 # 2)] in
  r.2 = Raised
  /\ r.1.2 = [VideoCapture (Camera 0);
              Emit (signal_raw_stream (Bgr 1%nat));
              Emit (signal_sampled_audit_stream (Bgr 1%nat))]
  /\ (Release ∉ r.1.2)
  /\ (forall p, Print p ∉ r.1.2).
Proof.
  cbv zeta.
  assert ((run detecting_thread clock_from_zero [raising_tick (1 # 2)]).1.2
          = [VideoCapture (Camera 0);
             Emit (signal_raw_stream (Bgr 1%nat));
             Emit (signal_sampled_audit_stream (Bgr 1%nat))]) as ->
    by (vm_compute; reflexivity).
  split; [vm_compute; reflexivity|]. split; [reflexivity|].
  split; [absent|]. intros p. absent.
Qed.

(** A stop asked for before the first iteration: the capture is released,
    but line 223 reads the local [current_time], which no iteration has
    assigned, so [run] is left by [UnboundLocalError] before the report. *)
Example stop_before_first_iteration :
  (run camera_thread clock_from_zero [stopping_tick 1]).1.2
  = [VideoCapture (Camera 0); Release]
  /\ (run camera_thread clock_from_zero [stopping_tick 1]).2 = Raised.
Proof. vm_compute. done. Qed.

(** A stop asked for after one iteration runs the whole sequence. *)
Example stop_after_one_iteration :
  runs_shutdown
    (loop camera_thread None [quiet_tick; stopping_tick 1]).
Proof.
  split; [vm_compute; reflexivity|].
  exists [Emit (signal_raw_stream (Bgr 1%nat));
          Emit (signal_sampled_audit_stream (Bgr 1%nat))].
  vm_compute. reflexivity.
Qed.

(** * Further properties of the thread *)

(** ** Relations kept by every step of the loop *)

(** A reflexive and transitive relation that holds across the calls, the
    iteration and the shutdown of every tick satisfying [Q] holds across
    the loop. *)
Lemma loop_relates (Q : Tick -> Prop) (R : Thread -> Thread -> Prop) :
  (forall s, R s s) ->
  (forall a b c, R a b -> R b c -> R a c) ->
  (forall s t, Q t -> R s (foldl apply_call s (calls t))) ->
  (forall s t fl s' o, Q t -> iteration s t = (fl, s', o) -> R s s') ->
  (forall s lt s' o e, shutdown s lt = (s', o, e) -> R s s') ->
  forall ticks s lt s' o e,
    Forall Q ticks -> loop s lt ticks = (s', o, e) -> R s s'.
Proof.
  intros Hrefl Htrans Hcalls Hiter Hshut.
  induction ticks as [|t ticks IH]; intros s lt s' o e F; cbn [loop].
  - intros [= <- _ _]. apply Hrefl.
  - apply Forall_cons in F as [Ht F].
    pose proof (Hcalls s t Ht) as C.
    destruct (thread_active_status _).
    + destruct (iteration _ t) as [[fl s1] o1] eqn:I.
      apply (Hiter _ _ _ _ _ Ht) in I.
      destruct fl.
      * destruct (loop s1 (Some (current_time t)) ticks)
          as [[s2 o2] e2] eqn:L.
        apply (IH _ _ _ _ _ F) in L. intros [= <- _ _]. eauto.
      * destruct (shutdown s1 (Some (current_time t))) as [[s2 o2] e2] eqn:S.
        apply Hshut in S. intros [= <- _ _]. eauto.
      * intros [= <- _ _]. eauto.
    + intros S. apply Hshut in S. eauto.
Qed.

Lemma run_relates (Q : Tick -> Prop) (R : Thread -> Thread -> Prop) :
  (forall s, R s s) ->
  (forall a b c, R a b -> R b c -> R a c) ->
  (forall s t, Q t -> R s (foldl apply_call s (calls t))) ->
  (forall s t fl s' o, Q t -> iteration s t = (fl, s', o) -> R s s') ->
  (forall s lt s' o e, shutdown s lt = (s', o, e) -> R s s') ->
  forall ticks s st s' o e,
    Forall Q ticks -> run s st ticks = (s', o, e) -> R (prepare s st) s'.
Proof.
  intros Hrefl Htrans Hcalls Hiter Hshut ticks s st s' o e F.
  unfold run. cbv zeta.
  destruct (loop (prepare s st) None ticks) as [[s1 o1] e1] eqn:L.
  intros [= <- _ _].
  by eapply (loop_relates Q R) in L.
Qed.
(** ** Counters and signals *)

Lemma count_app p o1 o2 : count p (o1 ++ o2) = count p o1 + count p o2.
Proof.
  unfold count. rewrite List.filter_app, length_app. lia.
Qed.

Lemma count_cons p e o :
  count p (e :: o) = (if p e then 1 else 0) + count p o.
Proof.
  unfold count. cbn [List.filter]. destruct (p e); cbn [length]; lia.
Qed.

Lemma count_nil p : count p [] = 0.
Proof. reflexivity. Qed.

Lemma count_alerts p hits :
  (forall d, p (alert_of d) = false) -> count p (map alert_of hits) = 0.
Proof.
  intros Hp. induction hits as [|d hits IH]; [done|].
  cbn [map]. by rewrite count_cons, Hp, IH.
Qed.

(** The detection branch emits neither raw nor sampled frames. *)
Lemma detect_no_frames self f results :
  count is_raw_signal (detect self f results).2 = 0
  /\ count is_sampled_signal (detect self f results).2 = 0.
Proof.
  destruct results as [[|r0 rs]|]; try done.
  destruct (detect_effects self f r0 rs) as (s' & hits & -> & _).
  cbn [snd]. rewrite !count_app, !count_cons, !count_alerts by done.
  by destruct (existsb _ _).
Qed.

Lemma sample_counts self f t :
  let r := sample self f t in
  raw_frame_count_total r.1.2 = raw_frame_count_total self
  /\ sampled_frame_count_total r.1.2
     = sampled_frame_count_total self + count is_sampled_signal r.2
  /\ count is_raw_signal r.2 = 0
  /\ 0 <= count is_sampled_signal r.2 <= 1.
Proof.
  cbv zeta.
  destruct (sample self f t) as [[fl s'] out] eqn:S. cbn [fst snd].
  destruct (Qle_bool (sampling_interval_sec self)
              (current_time t - last_sample_timestamp self)) eqn:E.
  - destruct (sample_due _ _ _ _ _ _ E S) as (_ & C & R & _).
    rewrite R, C. clear R C.
    revert S. unfold sample. rewrite E. cbv zeta.
    match goal with |- context [detect ?s f ?r] =>
      destruct (detect_no_frames s f r) as [D1 D2];
      destruct (detect s f r) as [[fl1 s1] o1] end.
    cbn [snd] in D1, D2.
    match goal with |- context [if ?b then _ else _] => destruct b end;
      intros [= _ _ <-];
      rewrite ?count_app, !count_cons, ?count_nil, ?D1, ?D2;
      cbn [is_raw_signal is_sampled_signal]; lia.
  - rewrite (sample_not_due _ _ _ E) in S. injection S as _ <- <-.
    rewrite !count_nil. lia.
Qed.

(** One iteration: each counter grows by the number of frames the
    iteration emits on the matching stream, at most one, and a frame is
    emitted on the sampled stream only after it was on the raw one. *)
Lemma iteration_counts self t :
  let r := iteration self t in
  raw_frame_count_total r.1.2
  = raw_frame_count_total self + count is_raw_signal r.2
  /\ sampled_frame_count_total r.1.2
     = sampled_frame_count_total self + count is_sampled_signal r.2
  /\ 0 <= count is_sampled_signal r.2 <= count is_raw_signal r.2.
Proof.
  cbv zeta. unfold iteration. destruct (read t) as [f|].
  - cbv zeta.
    pose proof (sample_counts (count_raw_frame self) f t) as (R & C & N & B).
    cbv zeta in *.
    destruct (sample (count_raw_frame self) f t) as [[fl s1] o1].
    cbn [fst snd] in *.
    assert (raw_frame_count_total (count_raw_frame self)
            = raw_frame_count_total self + 1) as R0 by (by destruct self).
    assert (sampled_frame_count_total (count_raw_frame self)
            = sampled_frame_count_total self) as C0 by (by destruct self).
    destruct fl.
    + pose proof (end_of_body_sampling s1 t) as (_ & _ & W2 & W3).
      destruct (end_of_body s1 t) as [fl s2]. cbn [fst snd app] in *.
      rewrite W2, W3, R, C, R0, C0, !count_cons, N.
      cbn [is_raw_signal is_sampled_signal]. lia.
    + cbn [fst snd app]. rewrite R, C, R0, C0, !count_cons, N.
      cbn [is_raw_signal is_sampled_signal]. lia.
    + cbn [fst snd app]. rewrite R, C, R0, C0, !count_cons, N.
      cbn [is_raw_signal is_sampled_signal]. lia.
  - unfold read_failed.
    destruct (isinstance_int _); [destruct (negb _)|]; cbn [fst snd app];
      rewrite ?count_cons, ?count_nil;
      cbn [is_raw_signal is_sampled_signal];
      (split; [|split]); try lia; destruct self; cbn; lia.
Qed.

Lemma shutdown_counts s lt :
  let r := shutdown s lt in
  raw_frame_count_total r.1.1 = raw_frame_count_total s
  /\ sampled_frame_count_total r.1.1 = sampled_frame_count_total s
  /\ count is_raw_signal r.1.2 = 0
  /\ count is_sampled_signal r.1.2 = 0.
Proof.
  cbv zeta. destruct lt as [now|]; [|done].
  rewrite shutdown_returns. cbn [fst snd].
  destruct (bool_decide _); by destruct s.
Qed.

Lemma loop_counts ticks self lt :
  let r := loop self lt ticks in
  raw_frame_count_total r.1.1
  = raw_frame_count_total self + count is_raw_signal r.1.2
  /\ sampled_frame_count_total r.1.1
     = sampled_frame_count_total self + count is_sampled_signal r.1.2
  /\ 0 <= count is_sampled_signal r.1.2 <= count is_raw_signal r.1.2.
Proof.
  cbv zeta. revert self lt.
  induction ticks as [|t ticks IH]; intros self lt; cbn [loop].
  - rewrite !count_nil. cbn [fst snd]. lia.
  - destruct (apply_calls_counters (calls t) self) as [<- <-].
    set (self' := foldl apply_call self (calls t)).
    destruct (thread_active_status self').
    + pose proof (iteration_counts self' t) as (R & C & B). cbv zeta in *.
      destruct (iteration self' t) as [[fl s1] o1]. cbn [fst snd] in *.
      destruct fl.
      * specialize (IH s1 (Some (current_time t))).
        destruct (loop s1 (Some (current_time t)) ticks) as [[s2 o2] e2].
        cbn [fst snd] in *. rewrite !count_app. lia.
      * pose proof (shutdown_counts s1 (Some (current_time t)))
          as (R' & C' & N1 & N2). cbv zeta in *.
        destruct (shutdown s1 (Some (current_time t))) as [[s2 o2] e2].
        cbn [fst snd] in *. rewrite !count_app. lia.
      * cbn [fst snd]. lia.
    + pose proof (shutdown_counts self' lt) as (R' & C' & N1 & N2).
      cbv zeta in *. lia.
Qed.

Lemma prepare_counters self st :
  raw_frame_count_total (prepare self st) = raw_frame_count_total self
  /\ sampled_frame_count_total (prepare self st)
     = sampled_frame_count_total self.
Proof.
  unfold prepare.
  match goal with |- context [if ?b then _ else _] => destruct b end;
    by destruct self.
Qed.

Lemma run_counts self st ticks :
  let r := run self st ticks in
  raw_frame_count_total r.1.1
  = raw_frame_count_total self + count is_raw_signal r.1.2
  /\ sampled_frame_count_total r.1.1
     = sampled_frame_count_total self + count is_sampled_signal r.1.2
  /\ 0 <= count is_sampled_signal r.1.2 <= count is_raw_signal r.1.2.
Proof.
  cbv zeta. unfold run. cbv zeta.
  pose proof (loop_counts ticks (prepare self st) None) as (R & C & B).
  cbv zeta in *.
  destruct (loop (prepare self st) None ticks) as [[s1 o1] e1].
  cbn [fst snd] in *.
  destruct (prepare_counters self st) as [R0 C0].
  rewrite !count_cons. cbn [is_raw_signal is_sampled_signal]. lia.
Qed.

(** X1: over the whole of [run], [raw_frame_count_total] grows by exactly
    the number of frames emitted on the raw stream and
    [sampled_frame_count_total] by exactly the number emitted on the
    sampled stream. *)
Theorem counters_match_emitted_frames self st ticks :
  let r := run self st ticks in
  raw_frame_count_total r.1.1
  = raw_frame_count_total self + count is_raw_signal r.1.2
  /\ sampled_frame_count_total r.1.1
     = sampled_frame_count_total self + count is_sampled_signal r.1.2.
Proof.
  pose proof (run_counts self st ticks) as (R & C & _). by split.
Qed.

(** X2: a thread that has not sampled more frames than it has read keeps
    it so through the whole of [run], and neither total ever goes down. *)
Theorem sampled_never_exceeds_raw self st ticks :
  sampled_frame_count_total self <= raw_frame_count_total self ->
  let s' := (run self st ticks).1.1 in
  sampled_frame_count_total s' <= raw_frame_count_total s'
  /\ raw_frame_count_total self <= raw_frame_count_total s'
  /\ sampled_frame_count_total self <= sampled_frame_count_total s'.
Proof.
  intros H. cbv zeta.
  pose proof (run_counts self st ticks) as (R & C & B). cbv zeta in *.
  assert (0 <= count is_raw_signal (run self st ticks).1.2) by lia.
  lia.
Qed.

Lemma sampled_never_exceeds_raw_witness :
  sampled_frame_count_total camera_thread
  <= raw_frame_count_total camera_thread
  /\ sampled_frame_count_total
       (run camera_thread clock_from_zero [quiet_tick; hit_tick 1]).1.1
     <= raw_frame_count_total
          (run camera_thread clock_from_zero [quiet_tick; hit_tick 1]).1.1.
Proof.
  assert (sampled_frame_count_total camera_thread
          <= raw_frame_count_total camera_thread) as H by (cbn; lia).
  split; [exact H|].
  exact (proj1 (sampled_never_exceeds_raw camera_thread clock_from_zero
                  [quiet_tick; hit_tick 1] H)).
Defined.

(** ** The suppression map and the set of violation types *)

Lemma bookkept_same_alerts s s' :
  violation_last_alert_time s' = violation_last_alert_time s ->
  detected_violation_types s' = detected_violation_types s ->
  bookkept s -> bookkept s'.
Proof. unfold bookkept. by intros -> ->. Qed.

Lemma handle_box_bookkept acc d :
  bookkept (scan_self acc) -> bookkept (scan_self (handle_box acc d)).
Proof.
  rewrite handle_box_unfold.
  destruct (violating d) eqn:V; [destruct (passes _ _)|]; try done.
  cbn [scan_self]. intros [D L]. unfold bookkept.
  set (s := scan_self acc) in *.
  replace (violation_last_alert_time (set_detected_violation_types _ _))
    with (<[label (box d) := current_alert_time d]>
            (violation_last_alert_time s)) by (by destruct s).
  replace (detected_violation_types (set_detected_violation_types _ _))
    with ({[label (box d)]} ∪ detected_violation_types s) by (by destruct s).
  split.
  - by rewrite dom_insert_L, D.
  - intros l [->%elem_of_singleton|Hl]%elem_of_union; [exact V|by apply L].
Qed.

Lemma handle_box_types acc d :
  detected_violation_types (scan_self (handle_box acc d))
  = (if violating d && passes (scan_self acc) d
     then {[label (box d)]} else ∅)
    ∪ detected_violation_types (scan_self acc).
Proof.
  rewrite handle_box_unfold.
  destruct (violating d); [destruct (passes _ _)|]; cbn [scan_self andb];
    rewrite ?(left_id_L ∅ (∪)); try done.
  by destruct (scan_self acc).
Qed.

(** The scan of a list of boxes: the alerts it adds are those of a list of
    hits, the labels of which are what it adds to the set of types. *)
Lemma scan_hits ds acc :
  exists hits,
    scan_out (foldl handle_box acc ds) = scan_out acc ++ map alert_of hits
    /\ detected_violation_types (scan_self (foldl handle_box acc ds))
       = list_to_set (map (fun d => label (box d)) hits)
         ∪ detected_violation_types (scan_self acc)
    /\ (bookkept (scan_self acc) ->
        bookkept (scan_self (foldl handle_box acc ds))).
Proof.
  revert acc. induction ds as [|d ds IH]; intros acc; cbn [foldl].
  - exists []. cbn. rewrite app_nil_r, (left_id_L ∅ (∪)). done.
  - destruct (IH (handle_box acc d)) as (hits & O & T & B).
    rewrite O, T, handle_box_out, handle_box_types.
    destruct (violating d && passes (scan_self acc) d).
    + exists (d :: hits). cbn [map list_to_set].
      rewrite <- app_assoc. split; [done|].
      split; [by rewrite (assoc_L (∪)), (comm_L (∪) _ {[_]})|].
      intros H. by apply B, handle_box_bookkept.
    + exists hits. rewrite app_nil_r. split; [done|].
      split; [by rewrite (left_id_L ∅ (∪))|].
      intros H. by apply B, handle_box_bookkept.
Qed.

(** The detection branch, with what it does to the set of types. *)
Lemma detect_hits self f results :
  exists hits others,
    (detect self f results).2 = others ++ map alert_of hits ++
                                (List.filter is_violation_image
                                   (detect self f results).2)
    /\ existsb is_box_alert others = false
    /\ detected_violation_types (detect self f results).1.2
       = list_to_set (map (fun d => label (box d)) hits)
         ∪ detected_violation_types self
    /\ (bookkept self -> bookkept (detect self f results).1.2).
Proof.
  destruct results as [[|r0 rs]|].
  - exists [], []. cbn. by rewrite (left_id_L ∅ (∪)).
  - rewrite detect_answers. cbv zeta.
    match goal with |- context [foldl handle_box ?a ?l] =>
      destruct (scan_hits l a) as (hits & O & T & B);
      set (sc := foldl handle_box a l) in * end.
    cbn [scan_out scan_self] in *.
    exists hits,
      [Emit (signal_object_detection_result_stream (Plot f (map box r0)))].
    cbn [fst snd]. rewrite O. split; [|done].
    rewrite List.filter_app. cbn [List.filter is_violation_image app].
    assert (List.filter is_violation_image (map alert_of hits) = []) as ->.
    { clear. by induction hits. }
    by destruct (violation_detected_this_frame sc).
  - exists [], []. cbn. by rewrite (left_id_L ∅ (∪)).
Qed.
Lemma box_alert_hits hits :
  existsb is_box_alert (map alert_of hits)
  = match hits with [] => false | _ => true end.
Proof. by destruct hits. Qed.

Lemma no_box_alert_images out :
  existsb is_box_alert (List.filter is_violation_image out) = false.
Proof.
  induction out as [|e out IH]; [done|]. cbn [List.filter].
  destruct (is_violation_image e) eqn:E; [|done].
  cbn [existsb]. rewrite IH. by destruct e as [[]| | | |].
Qed.

Lemma types_step_same s s' out :
  violation_last_alert_time s' = violation_last_alert_time s ->
  detected_violation_types s' = detected_violation_types s ->
  existsb is_box_alert out = false ->
  types_step s (s', out).
Proof.
  intros M T O. unfold types_step. cbn [fst snd]. rewrite T, O.
  split; [by split; [|intros []]|]. split; [done|].
  by apply bookkept_same_alerts.
Qed.

Lemma detect_types_step self f results :
  types_step self ((detect self f results).1.2, (detect self f results).2).
Proof.
  destruct (detect_hits self f results) as (hits & others & O & N & T & B).
  unfold types_step. cbn [fst snd]. rewrite T.
  split; [|split; [apply union_subseteq_r|done]].
  rewrite O, !existsb_app, N, box_alert_hits, no_box_alert_images.
  destruct hits as [|d hits]; cbn [map list_to_set orb].
  - rewrite (left_id_L ∅ (∪)). by split; [|intros []].
  - split; [|by intros []]. intros E. exfalso.
    assert (label (box d)
            ∈ ({[label (box d)]}
               ∪ list_to_set (map (fun d => label (box d)) hits)
               ∪ detected_violation_types self : gset string)) as H.
    { apply elem_of_union. left. apply elem_of_union. left.
      by apply elem_of_singleton. }
    rewrite E in H. by apply not_elem_of_empty in H.
Qed.

Lemma sample_types_step self f t :
  types_step self ((sample self f t).1.2, (sample self f t).2).
Proof.
  unfold sample. destruct (Qle_bool _ _); cbv zeta;
    [|by apply types_step_same].
  match goal with |- context [if ?b then _ else _] => destruct b end;
    [|apply types_step_same; by destruct self].
  match goal with |- context [detect ?s f ?r] =>
    pose proof (detect_types_step s f r) as (E & S & B);
    set (s1 := s) in *;
    destruct (detect s1 f r) as [[fl s2] o2] end.
  cbn [fst snd] in *.
  assert (violation_last_alert_time s1 = violation_last_alert_time self
          /\ detected_violation_types s1 = detected_violation_types self)
    as [M1 T1] by (by destruct self).
  unfold types_step. cbn [fst snd app existsb is_box_alert
                          is_violation_alert andb orb].
  rewrite <- T1. split; [done|]. split; [done|].
  intros H. apply B. by apply (bookkept_same_alerts self).
Qed.

Lemma iteration_types_step self t :
  types_step self ((iteration self t).1.2, (iteration self t).2).
Proof.
  unfold iteration. destruct (read t) as [f|].
  - cbv zeta.
    pose proof (sample_types_step (count_raw_frame self) f t) as (E & S & B).
    destruct (sample (count_raw_frame self) f t) as [[fl s1] o1].
    cbn [fst snd] in *.
    assert (violation_last_alert_time (count_raw_frame self)
            = violation_last_alert_time self
            /\ detected_violation_types (count_raw_frame self)
               = detected_violation_types self)
      as [M0 T0] by (by destruct self).
    rewrite T0 in *.
    assert (types_step self (s1, Emit (signal_raw_stream (Bgr f)) :: o1))
      as H1.
    { unfold types_step. cbn [fst snd existsb is_box_alert
                               is_violation_alert andb orb].
      split; [done|]. split; [done|].
      intros H. apply B. by apply (bookkept_same_alerts self). }
    destruct fl; try exact H1.
    assert (violation_last_alert_time (end_of_body s1 t).2
            = violation_last_alert_time s1
            /\ detected_violation_types (end_of_body s1 t).2
               = detected_violation_types s1) as [M2 T2].
    { unfold end_of_body, fps_window. cbv zeta.
      destruct (Qle_bool 1 _); destruct (Qle_bool _ _); by destruct s1. }
    destruct (end_of_body s1 t) as [fl s2]. cbn [fst snd app] in *.
    destruct H1 as (E1 & S1 & B1). unfold types_step. cbn [fst snd] in *.
    rewrite T2. split; [done|]. split; [done|].
    intros H. by apply (bookkept_same_alerts s1), B1.
  - unfold read_failed.
    destruct (isinstance_int _); [destruct (negb _)|]; cbn [fst snd];
      apply types_step_same; try done; by destruct self.
Qed.
Lemma types_step_trans s s1 o1 s2 o2 :
  types_step s (s1, o1) -> types_step s1 (s2, o2) ->
  types_step s (s2, o1 ++ o2).
Proof.
  unfold types_step. cbn [fst snd].
  intros (E1 & S1 & B1) (E2 & S2 & B2). rewrite existsb_app.
  split; [|split; [by etrans|auto]].
  rewrite E2, E1, orb_false_iff. tauto.
Qed.

Lemma apply_calls_alerts cs s :
  violation_last_alert_time (foldl apply_call s cs)
  = violation_last_alert_time s
  /\ detected_violation_types (foldl apply_call s cs)
     = detected_violation_types s.
Proof.
  revert s. induction cs as [|c cs IH]; intros s; [done|].
  cbn [foldl]. destruct (IH (apply_call s c)) as [-> ->].
  destruct c as [n|b|]; cbn; [unfold update_inference_fps;
    destruct (0 <? n), (int_too_large n)|..]; by destruct s.
Qed.

Lemma shutdown_types_step s lt :
  types_step s ((shutdown s lt).1.1, (shutdown s lt).1.2).
Proof.
  destruct lt as [now|]; [|by apply types_step_same].
  rewrite shutdown_returns. cbn [fst snd].
  apply types_step_same; try by destruct s.
  by destruct (bool_decide _).
Qed.

Lemma loop_types_step ticks self lt :
  types_step self ((loop self lt ticks).1.1, (loop self lt ticks).1.2).
Proof.
  revert self lt.
  induction ticks as [|t ticks IH]; intros self lt; cbn [loop].
  - by apply types_step_same.
  - destruct (apply_calls_alerts (calls t) self) as [M T].
    assert (types_step self (foldl apply_call self (calls t), []))
      as C by (by apply types_step_same).
    set (s0 := foldl apply_call self (calls t)) in *.
    destruct (thread_active_status s0).
    + pose proof (iteration_types_step s0 t) as I.
      destruct (iteration s0 t) as [[fl s1] o1]. cbn [fst snd] in I.
      pose proof (types_step_trans _ _ _ _ _ C I) as CI. cbn [app] in CI.
      destruct fl.
      * specialize (IH s1 (Some (current_time t))).
        destruct (loop s1 (Some (current_time t)) ticks) as [[s2 o2] e2].
        cbn [fst snd] in *. by eapply types_step_trans.
      * pose proof (shutdown_types_step s1 (Some (current_time t))) as S.
        destruct (shutdown s1 (Some (current_time t))) as [[s2 o2] e2].
        cbn [fst snd] in *. by eapply types_step_trans.
      * exact CI.
    + pose proof (shutdown_types_step s0 lt) as S.
      apply (types_step_trans _ _ _ _ _ C S).
Qed.

Lemma prepare_alerts self st :
  violation_last_alert_time (prepare self st) = violation_last_alert_time self
  /\ detected_violation_types (prepare self st)
     = detected_violation_types self.
Proof.
  unfold prepare.
  match goal with |- context [if ?b then _ else _] => destruct b end;
    by destruct self.
Qed.

Lemma run_types_step self st ticks :
  types_step self ((run self st ticks).1.1, (run self st ticks).1.2).
Proof.
  unfold run. cbv zeta.
  pose proof (loop_types_step ticks (prepare self st) None) as L.
  destruct (loop (prepare self st) None ticks) as [[s1 o1] e1].
  cbn [fst snd] in *.
  destruct (prepare_alerts self st) as [M T].
  assert (types_step self (prepare self st,
                           [VideoCapture (media_source self)])) as P
    by (by apply types_step_same).
  apply (types_step_trans _ _ _ _ _ P L).
Qed.

Lemma existsb_filter {A} (p : A -> bool) (l : list A) :
  existsb p l = match List.filter p l with [] => false | _ => true end.
Proof.
  induction l as [|x l IH]; [done|]. cbn. by destruct (p x).
Qed.

(** X6: a thread whose suppression map and set of violation types agree
    (a label has a last-alert time exactly when it is in the set, and only
    labels of the violation list are in it), as they do in a new thread,
    keeps them so through the whole of [run]; the set only grows. So the
    final summary names only labels of the violation list. *)
Theorem suppression_bookkeeping_kept self st ticks :
  bookkept self ->
  let s' := (run self st ticks).1.1 in
  dom (violation_last_alert_time s') = detected_violation_types s'
  /\ (forall l, l ∈ detected_violation_types s' ->
                label_in l violation_list = true)
  /\ detected_violation_types self ⊆ detected_violation_types s'.
Proof.
  intros B. cbv zeta.
  destruct (run_types_step self st ticks) as (_ & S & B'). cbn [fst] in *.
  destruct (B' B) as [D L]. by repeat split.
Qed.

Lemma suppression_bookkeeping_kept_witness :
  bookkept detecting_thread
  /\ dom (violation_last_alert_time
            (run detecting_thread clock_from_zero two_frames).1.1)
     = detected_violation_types
         (run detecting_thread clock_from_zero two_frames).1.1.
Proof.
  assert (bookkept detecting_thread) as B.
  { split; [apply dom_empty_L|].
    intros l Hl. by apply not_elem_of_empty in Hl. }
  split; [exact B|].
  exact (proj1 (suppression_bookkeeping_kept detecting_thread clock_from_zero
                  two_frames B)).
Defined.

(** X7: in a session started with an empty set of violation types that
    [run] ends by returning, a final summary is emitted exactly when some
    box raised an alert during the session. *)
Theorem final_summary_iff_some_alert self st ticks :
  detected_violation_types self = ∅ ->
  (run self st ticks).2 = Returned ->
  existsb is_final_summary (run self st ticks).1.2
  = existsb is_box_alert (run self st ticks).1.2.
Proof.
  intros T0 R.
  destruct (run_types_step self st ticks) as (E & _ & _). cbn [fst snd] in E.
  revert R E. unfold run. cbv zeta.
  destruct (loop (prepare self st) None ticks) as [[s1 o1] e1] eqn:L.
  cbn [fst snd]. intros -> E.
  apply loop_summaries in L.
  cbn [existsb is_final_summary is_box_alert is_violation_alert andb orb]
    in *.
  rewrite existsb_filter, L.
  destruct (bool_decide_reflect (detected_violation_types s1 ≠ ∅)) as [N|N].
  - destruct (existsb is_box_alert o1); [done|].
    exfalso. apply N. by apply E.
  - destruct (existsb is_box_alert o1) eqn:A; [|done].
    exfalso. assert (detected_violation_types s1 = ∅) as Z.
    { destruct (decide (detected_violation_types s1 = ∅)); [done|].
      by exfalso. }
    apply E in Z as [_ Z]. congruence.
Qed.

Lemma final_summary_iff_some_alert_witness :
  let r := run detecting_thread clock_from_zero
             [hit_tick 10; failing_tick 13 false] in
  detected_violation_types detecting_thread = ∅
  /\ r.2 = Returned
  /\ existsb is_final_summary r.1.2 = existsb is_box_alert r.1.2.
Proof.
  intros r.
  assert (detected_violation_types detecting_thread = ∅) as T by reflexivity.
  assert (r.2 = Returned) as R by (vm_compute; reflexivity).
  split; [exact T|]. split; [exact R|].
  exact (final_summary_iff_some_alert detecting_thread clock_from_zero _ T R).
Defined.

(** ** The text of the final summary *)

Lemma string_app_assoc (a b c : string) :
  ((a ++ b) ++ c = a ++ (b ++ c))%string.
Proof.
  induction a as [|x a IH]; [done|].
  change (String x ((a ++ b) ++ c) = String x (a ++ (b ++ c)))%string.
  by rewrite IH.
Qed.

Lemma string_app_nil_r (a : string) : (a ++ "")%string = a.
Proof.
  induction a as [|x a IH]; [done|].
  change (String x (a ++ "") = String x a)%string. by rewrite IH.
Qed.

Lemma violation_list_cases l :
  label_in l violation_list = true ->
  l = "NO-Mask" \/ l = "NO-Hardhat" \/ l = "NO-Safety Vest".
Proof.
  unfold label_in, violation_list. cbn [existsb].
  rewrite !orb_true_iff, !String.eqb_eq. intuition discriminate.
Qed.

(** [sep.join], from the left as [join] builds it and from the right. *)
Lemma foldl_join sep a b l :
  foldl (fun acc y => (acc ++ sep ++ y)%string) (a ++ b)%string l
  = (a ++ foldl (fun acc y => (acc ++ sep ++ y)%string) b l)%string.
Proof.
  revert b. induction l as [|y l IH]; intros b; [done|].
  cbn [foldl]. by rewrite string_app_assoc, IH.
Qed.

Lemma join_cons sep x y l :
  join sep (x :: y :: l) = (x ++ sep ++ join sep (y :: l))%string.
Proof.
  unfold join. cbn [foldl]. by rewrite !foldl_join.
Qed.

(** [split(", ")] reads a piece without a comma through to its end. *)
Lemma split_comma_free x piece rest :
  comma_free x = true ->
  split_from ", " 0 piece (x ++ rest) = split_from ", " 0 (piece ++ x) rest.
Proof.
  revert piece. induction x as [|c x IH]; intros piece Hx.
  - change ("" ++ rest)%string with rest. by rewrite string_app_nil_r.
  - cbn [comma_free] in Hx. apply andb_true_iff in Hx as [Hc Hx].
    apply negb_true_iff, Ascii.eqb_neq in Hc.
    change (String c x ++ rest)%string with (String c (x ++ rest)).
    cbn [split_from String.prefix].
    destruct (ascii_dec "," c) as [E|_]; [by destruct Hc|].
    rewrite IH by done. by rewrite string_app_assoc.
Qed.

Lemma split_separator piece rest :
  split_from ", " 0 piece (", " ++ rest)
  = piece :: split_from ", " 0 "" rest.
Proof. by destruct rest. Qed.

(** Labels without a comma, joined by ", ", are read back by
    [split(", ")]. *)
Lemma split_join x l :
  Forall (fun y => comma_free y = true) (x :: l) ->
  split ", " (join ", " (x :: l)) = x :: l.
Proof.
  unfold split. revert x. induction l as [|y l IH]; intros x F.
  - apply Forall_cons in F as [Hx _]. cbn [join foldl].
    rewrite <- (string_app_nil_r x) at 1.
    by rewrite split_comma_free.
  - apply Forall_cons in F as [Hx F].
    rewrite join_cons, split_comma_free, split_separator, IH by done.
    done.
Qed.

Lemma elements_enumerates : enumerates elements.
Proof.
  intros T. split; [apply NoDup_elements|]. intros l. apply elem_of_elements.
Qed.

Lemma new_thread_bookkept : bookkept detecting_thread.
Proof.
  split; [apply dom_empty_L|]. intros l Hl. by apply not_elem_of_empty in Hl.
Qed.

(** C7: in a thread whose set of violation types holds labels of the
    violation list only, as the empty set of a new thread does, and in an
    interpreter that iterates over a set in whatever order, each element
    once: among the effects of a run there is at most one final-summary
    alert; there is one only if the set of detected violation types is not
    empty (and then [run] has returned); its text is the header followed
    by a listing which, read at its separators ", ", gives each label of
    the set once and nothing else. *)
Theorem final_summary_at_most_once self st ticks :
  enumerates (iteration_order self) ->
  bookkept self ->
  let r := run self st ticks in
  let types := detected_violation_types r.1.1 in
  (length (List.filter is_final_summary r.1.2) <= 1)%nat
  /\ forall x, x ∈ r.1.2 -> is_final_summary x = true ->
       types ≠ ∅
       /\ r.2 = Returned
       /\ exists listing,
            x = Emit (signal_violation_alert
                        (final_summary_header ++ "All violations are: "
                         ++ listing)%string)
            /\ NoDup (split ", " listing)
            /\ forall l, l ∈ split ", " listing <-> l ∈ types.
Proof.
  intros En B. cbv zeta.
  destruct (run_types_step self st ticks) as (_ & _ & B').
  destruct (B' B) as [_ Lab]. clear B'.
  destruct (run self st ticks) as [[s out'] e] eqn:R.
  pose proof (run_configuration _ _ _ _ _ _ R) as (_ & _ & _ & _ & O).
  revert R. unfold run. cbv zeta.
  destruct (loop (prepare self st) None ticks) as [[s1 out] e1] eqn:L.
  intros [= -> <- ->]. cbn [fst snd] in *.
  apply loop_summaries in L.
  split.
  - cbn [List.filter is_final_summary]. rewrite L.
    destruct e; [cbn; lia| |cbn; lia]. destruct (bool_decide _); cbn; lia.
  - intros x Hx Hs.
    assert (x ∈ List.filter is_final_summary out) as Hf.
    { apply list_elem_of_In, filter_In. split; [|done].
      apply elem_of_cons in Hx as [->|Hx]; [done|].
      by apply list_elem_of_In. }
    rewrite L in Hf.
    destruct e; try by apply elem_of_nil in Hf.
    destruct (bool_decide_reflect (detected_violation_types s ≠ ∅))
      as [Hne|_]; [|by apply elem_of_nil in Hf].
    apply list_elem_of_singleton in Hf.
    split; [done|]. split; [done|].
    rewrite O in Hf. destruct (En (detected_violation_types s)) as [Nd In].
    set (order := iteration_order self (detected_violation_types s)) in *.
    exists (join ", " order). split; [exact Hf|].
    assert (split ", " (join ", " order) = order) as ->; [|done].
    clearbody order. destruct order as [|l0 rest].
    { exfalso. apply Hne. apply set_eq. intros l. rewrite <- In.
      split; [by intros ?%elem_of_nil|by intros ?%not_elem_of_empty]. }
    apply split_join. apply Forall_forall. intros l Hl.
    apply In, Lab, violation_list_cases in Hl as [->|[->| ->]]; reflexivity.
Qed.

Lemma final_summary_at_most_once_witness :
  let r := run detecting_thread clock_from_zero
             [hit_tick 10; hit_tick 12; failing_tick 13 false] in
  enumerates (iteration_order detecting_thread)
  /\ bookkept detecting_thread
  /\ (length (List.filter is_final_summary r.1.2) <= 1)%nat
  /\ Emit (signal_violation_alert
             (final_summary_header ++ "All violations are: NO-Mask")%string)
     ∈ r.1.2.
Proof.
  intros r.
  split; [exact elements_enumerates|]. split; [exact new_thread_bookkept|].
  split.
  - exact (proj1 (final_summary_at_most_once detecting_thread clock_from_zero
                    _ elements_enumerates new_thread_bookkept)).
  - vm_compute. repeat (first [by left | right]).
Defined.


(** Two interpreters that iterate over the same set in opposite orders
    list the two labels of a session in opposite orders. *)
Example final_summary_follows_iteration_order :
  let ticks := [hit_tick 10; hardhat_tick 12; failing_tick 13 false] in
  let summaries order :=
    match init (Camera 0) 5 30 order with
    | Some s =>
      List.filter is_final_summary
        (run (toggle_object_detection true s) clock_from_zero ticks).1.2
    | None => []
    end in
  summaries elements
  = [Emit (signal_violation_alert
             (final_summary_header
              ++ "All violations are: NO-Mask, NO-Hardhat")%string)]
  /\ summaries (fun T => reverse (elements T))
     = [Emit (signal_violation_alert
                (final_summary_header
                 ++ "All violations are: NO-Hardhat, NO-Mask")%string)].
Proof. vm_compute. done. Qed.

(** ** Stopping *)

Lemma apply_calls_stopped cs s :
  thread_active_status s = false ->
  thread_active_status (foldl apply_call s cs) = false.
Proof.
  revert s. induction cs as [|c cs IH]; intros s H; [done|].
  cbn [foldl]. apply IH.
  destruct c as [n|b|]; cbn; [unfold update_inference_fps;
    destruct (0 <? n), (int_too_large n)|..]; by destruct s.
Qed.

(** X8: no method sets [thread_active_status] back to [True]. Once it is
    cleared, whatever calls arrive afterwards, the loop reads no further
    frame: the next evaluation of its condition leaves it for the
    shutdown sequence. *)
Theorem stop_is_final self lt t rest :
  thread_active_status self = false ->
  loop self lt (t :: rest) = shutdown (foldl apply_call self (calls t)) lt
  /\ count is_raw_signal (loop self lt (t :: rest)).1.2 = 0.
Proof.
  intros H. cbn [loop].
  rewrite (apply_calls_stopped (calls t) self H).
  split; [done|]. by apply shutdown_counts.
Qed.

Lemma stop_is_final_witness :
  thread_active_status (terminate_thread camera_thread) = false
  /\ loop (terminate_thread camera_thread) (Some 1%Q) [hit_tick 2; hit_tick 3]
     = shutdown (terminate_thread camera_thread) (Some 1%Q).
Proof.
  split; [reflexivity|].
  exact (proj1 (stop_is_final (terminate_thread camera_thread) (Some 1%Q)
                  (hit_tick 2) [hit_tick 3] eq_refl)).
Defined.

(** X9: when the stop flag is already cleared the first time the loop
    condition is evaluated, [run] opens and releases the capture and is
    then left by an exception (line 223 reads [current_time], which no
    iteration has assigned): no final summary is emitted and no report is
    printed. *)
Theorem stop_before_first_frame_raises self st t rest :
  thread_active_status (foldl apply_call (prepare self st) (calls t)) = false ->
  run self st (t :: rest)
  = (foldl apply_call (prepare self st) (calls t),
     [VideoCapture (media_source self); Release], Raised).
Proof. intros H. unfold run. cbn [loop]. by rewrite H. Qed.

Lemma stop_before_first_frame_raises_witness :
  thread_active_status
    (foldl apply_call (prepare camera_thread clock_from_zero)
       (calls (stopping_tick 1))) = false
  /\ (run camera_thread clock_from_zero [stopping_tick 1]).2 = Raised.
Proof.
  split; [reflexivity|].
  by rewrite (stop_before_first_frame_raises camera_thread clock_from_zero
                (stopping_tick 1) [] eq_refl).
Defined.

(** ** Reconnection and the validation time *)

(** X10: while the reads of a camera fail and the reopens succeed, the
    loop goes on whatever the clock says, the validation time included:
    the failed iterations end in [continue] before the check of line 219.
    Nothing is counted and no attribute changes. *)
Theorem reconnecting_ignores_validation_time fails self lt :
  isinstance_int (media_source self) = true ->
  thread_active_status self = true ->
  Forall recovered_failure fails ->
  loop self lt fails
  = (self,
     concat (map (fun _ => reconnect_attempt (media_source self)
                           ++ [reconnected]) fails),
     InLoop).
Proof.
  intros Hc Ha F.
  pose proof (camera_failures_reconnect fails self lt [] Hc Ha F) as L.
  rewrite app_nil_r in L. rewrite L. cbn [loop]. by rewrite app_nil_r.
Qed.

Lemma reconnecting_ignores_validation_time_witness :
  isinstance_int (media_source camera_thread) = true
  /\ thread_active_status camera_thread = true
  /\ Forall recovered_failure [failing_tick 100 true; failing_tick 200 true]
  /\ (loop camera_thread None [failing_tick 100 true; failing_tick 200 true]).2
     = InLoop.
Proof.
  assert (Forall recovered_failure
            [failing_tick 100 true; failing_tick 200 true]) as F
    by (by repeat (apply Forall_cons; split; [done|]); constructor).
  split; [reflexivity|]. split; [reflexivity|]. split; [exact F|].
  by rewrite (reconnecting_ignores_validation_time _ camera_thread None
                eq_refl eq_refl F).
Defined.

(** ** The report, once more *)

Lemma alerts_only_session s s' : alerts_only s s' -> same_session s s'.
Proof. unfold alerts_only. intros ->. by destruct s. Qed.

Lemma same_session_trans a b c :
  same_session a b -> same_session b c -> same_session a c.
Proof.
  unfold same_session. intros (-> & -> & ->) (-> & -> & ->). done.
Qed.

Lemma sample_session s f t fl s' o :
  sample s f t = (fl, s', o) -> same_session s s'.
Proof.
  unfold sample. destruct (Qle_bool _ _); cbv zeta.
  - match goal with |- context [detect ?a ?g ?r] =>
      destruct (detect a g r) as [[fl1 s1] o1] eqn:D end.
    apply detect_alerts_only, alerts_only_session in D.
    match goal with |- context [if ?b then _ else _] => destruct b end.
    + intros [= _ <- _].
      eapply same_session_trans; [|exact D]. by destruct s.
    + intros [= _ <- _]. by destruct s.
  - by intros [= _ <- _].
Qed.

Lemma iteration_session s t fl s' o :
  iteration s t = (fl, s', o) -> same_session s s'.
Proof.
  unfold iteration. destruct (read t) as [f|].
  - cbv zeta.
    destruct (sample (count_raw_frame s) f t) as [[fl1 s1] o1] eqn:S.
    apply sample_session in S.
    assert (same_session s s1) as S'.
    { eapply same_session_trans; [|exact S]. by destruct s. }
    destruct fl1; try by intros [= _ <- _].
    assert (same_session s1 (end_of_body s1 t).2) as E.
    { unfold end_of_body, fps_window. cbv zeta.
      destruct (Qle_bool 1 _); destruct (Qle_bool _ _); by destruct s1. }
    destruct (end_of_body s1 t) as [fl2 s2]. cbn [snd] in E.
    intros [= _ <- _]. by eapply same_session_trans.
  - unfold read_failed.
    destruct (isinstance_int _); [destruct (negb _)|];
      intros [= _ <- _]; by destruct s.
Qed.

Lemma apply_calls_session cs s : same_session s (foldl apply_call s cs).
Proof.
  revert s. induction cs as [|c cs IH]; intros s; [done|].
  cbn [foldl]. eapply same_session_trans; [|apply IH].
  destruct c as [n|b|]; cbn; [unfold update_inference_fps;
    destruct (0 <? n), (int_too_large n)|..]; by destruct s.
Qed.

Lemma loop_session ticks s lt s' o e :
  loop s lt ticks = (s', o, e) -> same_session s s'.
Proof.
  intros L.
  apply (loop_relates (fun _ => True) same_session) in L; try done.
  - apply same_session_trans.
  - intros s0 t _. apply apply_calls_session.
  - intros s0 t fl s1 o1 _. apply iteration_session.
  - intros s0 lt0 s1 o1 e1. unfold shutdown.
    destruct lt0; intros [= <- _ _]; by destruct s0.
  - by apply Forall_forall.
Qed.

Lemma Qlt_bool_iff x y : Qlt_bool x y = true <-> (x < y)%Q.
Proof.
  unfold Qlt_bool. rewrite negb_true_iff. split.
  - intros H. apply Qnot_le_lt. intros C. apply Qle_bool_iff in C.
    congruence.
  - intros H. apply not_true_is_false. intros C. apply Qle_bool_iff in C.
    by apply Qlt_not_le in H.
Qed.

(** X11: the report of a session that returns shows the duration of the
    video, [CAP_PROP_FRAME_COUNT / CAP_PROP_FPS], when the source is a file
    whose capture reports a positive fps and a positive frame count; for a
    thread built on a camera it shows none. *)
Theorem report_video_duration self st ticks :
  (run self st ticks).2 = Returned ->
  exists pre r,
    (run self st ticks).1.2 = pre ++ [Print r]
    /\ (isinstance_str (media_source self) = true ->
        (0 < CAP_PROP_FPS st)%Q -> (0 < CAP_PROP_FRAME_COUNT st)%Q ->
        video_file_duration r
        = Some (CAP_PROP_FRAME_COUNT st / CAP_PROP_FPS st)%Q)
    /\ (isinstance_str (media_source self) = false ->
        video_reported_duration_sec self = 0%Q ->
        video_file_duration r = None).
Proof.
  unfold run. cbv zeta.
  destruct (loop (prepare self st) None ticks) as [[s1 o1] e1] eqn:L.
  cbn [fst snd]. intros ->.
  pose proof (loop_session _ _ _ _ _ _ L) as (V & _).
  apply loop_returned_prints in L as (pre & -> & _).
  exists (VideoCapture (media_source self) :: pre), (report s1).
  split; [done|]. unfold report. cbn [video_file_duration]. rewrite V.
  unfold prepare. split.
  - intros -> Hf Hc.
    apply Qlt_bool_iff in Hf as Hf'. apply Qlt_bool_iff in Hc as Hc'.
    rewrite Hf', Hc'. cbn [andb].
    replace (video_reported_duration_sec _)
      with (CAP_PROP_FRAME_COUNT st / CAP_PROP_FPS st)%Q
      by (by destruct self).
    assert (0 < CAP_PROP_FRAME_COUNT st / CAP_PROP_FPS st)%Q as Hd.
    { apply Qlt_shift_div_l; [done|]. lra. }
    apply Qlt_bool_iff in Hd. by rewrite Hd.
  - intros -> Hz. cbn [andb].
    replace (video_reported_duration_sec _) with 0%Q
      by (rewrite <- Hz; by destruct self).
    reflexivity.
Qed.

Lemma report_video_duration_witness :
  (run file_thread ten_second_file [failing_tick 1 false]).2 = Returned
  /\ exists pre r,
       (run file_thread ten_second_file [failing_tick 1 false]).1.2
       = pre ++ [Print r]
       /\ video_file_duration r = Some (300 / 30)%Q.
Proof.
  assert ((run file_thread ten_second_file [failing_tick 1 false]).2
          = Returned) as R by (vm_compute; reflexivity).
  split; [exact R|].
  destruct (report_video_duration file_thread ten_second_file _ R)
    as (pre & r & O & F & _).
  exists pre, r. split; [exact O|].
  apply F; [reflexivity|qcompare|qcompare].
Defined.

(** X12: an iteration that reads a frame, does not raise and finds the
    validation time used up ends the session with a report whose actual
    duration is the time from the start of the validation to this
    iteration, at least the configured duration. *)
Theorem timeout_reports_full_duration self lt t rest :
  let self' := foldl apply_call self (calls t) in
  thread_active_status self' = true ->
  is_Some (read t) ->
  (iteration self' t).1.1 <> Raise ->
  validation_elapsed self' t ->
  exists pre r,
    (loop self lt (t :: rest)).1.2 = pre ++ [Print r]
    /\ (loop self lt (t :: rest)).2 = Returned
    /\ actual_duration r = (current_time t - validation_start_time self')%Q
    /\ configured_duration r = validation_duration_sec self'
    /\ (configured_duration r <= actual_duration r)%Q.
Proof.
  intros self' Ha [f Hr] Hn Hv.
  pose proof (validation_timeout_breaks self' t f Hr Hn Hv) as B.
  cbn [loop]. fold self'. rewrite Ha.
  destruct (iteration self' t) as [[fl s1] o1] eqn:I. cbn [fst] in B.
  subst fl. apply iteration_session in I as (_ & Vs & Vd).
  rewrite shutdown_returns. cbn [fst snd].
  eexists (o1 ++ [Release] ++ _), _.
  split; [by rewrite <- (app_assoc o1), <- app_assoc|]. split; [done|].
  unfold report. cbn [actual_duration configured_duration].
  replace (actual_processing_duration_sec _)
    with (current_time t - validation_start_time s1)%Q by (by destruct s1).
  replace (validation_duration_sec (set_actual_processing_duration_sec _ s1))
    with (validation_duration_sec s1) by (by destruct s1).
  rewrite Vs, Vd. by repeat split.
Qed.

Lemma timeout_reports_full_duration_witness :
  thread_active_status (foldl apply_call camera_thread (calls (hit_tick 31)))
  = true
  /\ is_Some (read (hit_tick 31))
  /\ validation_elapsed
       (foldl apply_call camera_thread (calls (hit_tick 31))) (hit_tick 31)
  /\ (loop camera_thread None [hit_tick 31]).2 = Returned.
Proof.
  assert (validation_elapsed camera_thread (hit_tick 31)) as V
    by (unfold validation_elapsed; qcompare).
  split; [reflexivity|]. split; [by eexists|]. split; [exact V|].
  destruct (timeout_reports_full_duration camera_thread None (hit_tick 31) []
              eq_refl (ex_intro _ _ eq_refl) ltac:(discriminate) V)
    as (pre & r & _ & R & _).
  exact R.
Defined.

(** X13: for a thread that starts with [0 <= sampled <= raw] (a new thread
    starts with both at 0), the drop ratio in the report of a session that
    returns lies between 0 and 1. *)
Theorem drop_ratio_between_0_and_1 self st ticks :
  0 <= sampled_frame_count_total self <= raw_frame_count_total self ->
  (run self st ticks).2 = Returned ->
  exists pre r,
    (run self st ticks).1.2 = pre ++ [Print r]
    /\ (0 <= frame_drop_ratio r <= 1)%Q.
Proof.
  intros H0 R.
  pose proof (run_counts self st ticks) as (Hr & Hs & Hb). cbv zeta in *.
  revert R Hr Hs Hb. unfold run. cbv zeta.
  destruct (loop (prepare self st) None ticks) as [[s1 o1] e1] eqn:L.
  cbn [fst snd]. intros -> Hr Hs Hb.
  apply loop_returned_prints in L as (pre & -> & _).
  exists (VideoCapture (media_source self) :: pre), (report s1).
  split; [done|]. unfold report, drop_ratio. cbn [frame_drop_ratio].
  destruct (video_end_reached s1); [lra|].
  destruct (Z.ltb_spec 0 (raw_frame_count_total s1)) as [Hpos|_]; [|lra].
  set (r := raw_frame_count_total s1) in *.
  set (s := sampled_frame_count_total s1) in *.
  assert (0 <= s <= r) as [Hs0 Hsr] by lia.
  assert (0 < inject_Z r)%Q as Qr.
  { rewrite <- (Zlt_Qlt 0). exact Hpos. }
  assert (0 <= inject_Z s / inject_Z r)%Q as D0.
  { apply Qle_shift_div_l; [done|]. rewrite Qmult_0_l.
    rewrite <- (Zle_Qle 0). exact Hs0. }
  assert (inject_Z s / inject_Z r <= 1)%Q as D1.
  { apply Qle_shift_div_r; [done|]. rewrite Qmult_1_l.
    rewrite <- Zle_Qle. exact Hsr. }
  lra.
Qed.

Lemma drop_ratio_between_0_and_1_witness :
  let r := run camera_thread clock_from_zero
             [quiet_tick; hit_tick 1; failing_tick 2 false] in
  0 <= sampled_frame_count_total camera_thread
       <= raw_frame_count_total camera_thread
  /\ r.2 = Returned
  /\ exists pre rep,
       r.1.2 = pre ++ [Print rep] /\ (0 <= frame_drop_ratio rep <= 1)%Q.
Proof.
  intros r.
  assert (0 <= sampled_frame_count_total camera_thread
          <= raw_frame_count_total camera_thread) as H by (cbn; lia).
  assert (r.2 = Returned) as R by (vm_compute; reflexivity).
  split; [exact H|]. split; [exact R|].
  exact (drop_ratio_between_0_and_1 camera_thread clock_from_zero _ H R).
Defined.

(** * Properties of the RAG worker *)

(** ** Reading the alerts back *)

Lemma clean_violations_from acc l :
  foldl (fun clean v =>
           if contains "FINAL SUMMARY" v then clean
           else if contains "VIOLATION:" v
                then clean ++ [strip (List.last (split "VIOLATION:" v) "")]
                else clean) acc l
  = acc ++ concat (map clean_entry l).
Proof.
  revert acc. induction l as [|v l IH]; intros acc; cbn [foldl map concat].
  - by rewrite app_nil_r.
  - rewrite IH. unfold clean_entry.
    destruct (contains "FINAL SUMMARY" v); [done|].
    destruct (contains "VIOLATION:" v); [|done].
    by rewrite <- app_assoc.
Qed.

Lemma clean_violations_entries l :
  clean_violations l = concat (map clean_entry l).
Proof. unfold clean_violations. by rewrite clean_violations_from. Qed.

(** A clock character starts neither "VIOLATION:" nor "FINAL SUMMARY". *)
Lemma prefix_clock_char (x : ascii) (sep' : string) c s :
  is_clock_char x = false -> is_clock_char c = true ->
  String.prefix (String x sep') (String c s) = false.
Proof.
  intros Hx Hc. cbn. destruct (ascii_dec x c) as [->|]; [congruence|done].
Qed.

Lemma split_clock_text x sep' ts piece rest :
  is_clock_char x = false -> clock_text ts = true ->
  split_from (String x sep') 0 piece (ts ++ rest)
  = split_from (String x sep') 0 (piece ++ ts) rest.
Proof.
  intros Hx. revert piece.
  induction ts as [|c ts IH]; intros piece Hc.
  - change ("" ++ rest)%string with rest. by rewrite string_app_nil_r.
  - cbn [clock_text] in Hc. apply andb_true_iff in Hc as [Hc Hts].
    change (String c ts ++ rest)%string with (String c (ts ++ rest)).
    cbn [split_from].
    rewrite (prefix_clock_char x sep' c _ Hx Hc), IH by done.
    by rewrite string_app_assoc.
Qed.

Lemma contains_clock_text x sub' ts rest :
  is_clock_char x = false -> clock_text ts = true ->
  contains (String x sub') (ts ++ rest) = contains (String x sub') rest.
Proof.
  intros Hx. induction ts as [|c ts IH]; intros Hc; [done|].
  cbn [clock_text] in Hc. apply andb_true_iff in Hc as [Hc Hts].
  change (String c ts ++ rest)%string with (String c (ts ++ rest)).
  cbn [contains].
  by rewrite (prefix_clock_char x sub' c _ Hx Hc), IH.
Qed.

(** The alert of a box, read back by the worker, gives the label. *)
Lemma clean_entry_alert ts l :
  clock_text ts = true -> label_in l violation_list = true ->
  clean_entry (alert_text ts l) = [l].
Proof.
  intros Hts Hl. unfold clean_entry, split.
  change (alert_text ts l)
    with (String "[" (ts ++ ("] VIOLATION: " ++ l)))%string.
  cbn [contains].
  rewrite (contains_clock_text "F" "INAL SUMMARY") by done.
  rewrite (contains_clock_text "V" "IOLATION:") by done.
  cbn [split_from]. rewrite (split_clock_text "V" "IOLATION:") by done.
  destruct (violation_list_cases l Hl) as [->|[->| ->]]; reflexivity.
Qed.

Lemma clean_entry_summary T : clean_entry (final_summary T) = [].
Proof. reflexivity. Qed.
(** X15: the worker reads the alerts of the thread back. From a context
    made of messages as the thread builds them (alerts with a clock text as
    time stamp and a label of the violation list, and final summaries),
    [clean_violations] is the list of the labels of the alerts, in order;
    the final summaries add nothing. *)
Theorem alerts_read_back msgs :
  Forall thread_message msgs ->
  clean_violations (map message_text msgs) = omap message_label msgs.
Proof.
  rewrite clean_violations_entries.
  induction 1 as [|m msgs Hm _ IH]; [done|].
  cbn [map concat omap]. rewrite IH.
  destruct m as [ts l|T]; cbn [message_text message_label].
  - destruct Hm as [Hts Hl]. by rewrite clean_entry_alert.
  - by rewrite clean_entry_summary.
Qed.

Lemma alerts_read_back_witness :
  Forall thread_message
    [BoxAlert "12:00:00" "NO-Mask"; Summary ["NO-Mask"]]
  /\ clean_violations
       ["[12:00:00] VIOLATION: NO-Mask"; final_summary ["NO-Mask"]]
     = ["NO-Mask"].
Proof.
  assert (Forall thread_message
            [BoxAlert "12:00:00" "NO-Mask"; Summary ["NO-Mask"]]) as F
    by (repeat constructor).
  split; [exact F|]. exact (alerts_read_back _ F).
Defined.

(** ** One query per violation *)

Lemma elem_of_fromkeys x l : x ∈ fromkeys l <-> x ∈ l.
Proof.
  induction l as [|y l IH]; [done|]. cbn [fromkeys].
  rewrite !elem_of_cons, list_elem_of_In, filter_In, <- list_elem_of_In, IH.
  rewrite negb_true_iff, String.eqb_neq.
  destruct (decide (x = y)) as [->|]; [tauto|]. split.
  - intros [?|[? ?]]; tauto.
  - intros [?|?]; [tauto|]. right. split; [done|congruence].
Qed.

Lemma NoDup_fromkeys l : NoDup (fromkeys l).
Proof.
  induction l as [|y l IH]; [constructor|]. cbn [fromkeys].
  constructor.
  - rewrite list_elem_of_In, filter_In, String.eqb_refl. by intros [_ ?].
  - apply NoDup_ListNoDup, List.NoDup_filter, NoDup_ListNoDup, IH.
Qed.

Section RAGWorkerProperties.

Variable retrieve : string -> Retrieved.

(** The queries of [send_each] follow the list it is given, up to the
    first exception. *)
Lemma retrieved_queries_app o1 o2 :
  retrieved_queries (o1 ++ o2)
  = retrieved_queries o1 ++ retrieved_queries o2.
Proof. apply omap_app. Qed.

Lemma emit_documents_queries docs :
  retrieved_queries (emit_documents docs).1 = [].
Proof.
  induction docs as [|d docs IHd]; [done|]. cbn [emit_documents].
  destruct (d !! "content"); [|done].
  by destruct (emit_documents docs) as [o r].
Qed.

Lemma emit_documents_raises docs :
  match (emit_documents docs).2 with Some _ => true | None => false end
  = existsb (fun doc => bool_decide (doc !! "content" = None)) docs.
Proof.
  induction docs as [|d docs IH]; [done|]. cbn [emit_documents existsb].
  destruct (d !! "content") eqn:E.
  - rewrite bool_decide_false by done.
    by destruct (emit_documents docs) as [o r].
  - by rewrite bool_decide_true.
Qed.

(** The queries of [send_each] are those of the names it is given, up to
    the first one on which it raises. *)
Lemma send_each_queries unique :
  retrieved_queries (send_each retrieve unique).1
  = map rag_query (up_to_exception retrieve unique).
Proof.
  induction unique as [|v rest IH]; [done|].
  cbn [send_each up_to_exception map]. unfold raises_on.
  destruct (retrieve (rag_query v)) as [[|d docs]|m].
  - destruct (send_each retrieve rest) as [o r]. cbn [fst snd existsb] in *.
    rewrite !retrieved_queries_app.
    change (retrieved_queries [Stdout _; Retrieve (rag_query v)])
      with [rag_query v].
    change (retrieved_queries [Respond _]) with (@nil string).
    cbn [app]. by rewrite IH.
  - pose proof (emit_documents_queries (d :: docs)) as Hd.
    pose proof (emit_documents_raises (d :: docs)) as Hr.
    destruct (emit_documents (d :: docs)) as [o1 [m|]]; cbn [fst snd] in *;
      rewrite <- Hr.
    + by rewrite !retrieved_queries_app, Hd.
    + destruct (send_each retrieve rest) as [o r]. cbn [fst snd] in *.
      rewrite !retrieved_queries_app, Hd. cbn [app]. by rewrite IH.
  - done.
Qed.

Lemma elem_of_up_to_exception x l :
  x ∈ up_to_exception retrieve l -> x ∈ l.
Proof.
  induction l as [|y l IH]; [done|]. cbn [up_to_exception].
  rewrite !elem_of_cons. intros [->|H]; [by left|]. right.
  destruct (raises_on retrieve y); [by apply elem_of_nil in H|by apply IH].
Qed.

Lemma NoDup_up_to_exception l :
  NoDup l -> NoDup (up_to_exception retrieve l).
Proof.
  induction 1 as [|y l Hy _ IH]; [constructor|]. cbn [up_to_exception].
  destruct (raises_on retrieve y).
  - apply NoDup_singleton.
  - constructor; [|done]. intros H. by apply Hy, elem_of_up_to_exception.
Qed.

(** X16: the retriever is asked about the distinct violation names of the
    context, in the order of their first occurrence, one query per name,
    until a name makes the loop raise (the retriever raises, or a document
    it returns has no key "content"): the queries it receives are exactly
    those of the names up to that one, and no name is asked about twice.
    When no name raises, every name is asked about. *)
Theorem one_query_per_violation user_query violations_list :
  let unique := fromkeys (clean_violations violations_list) in
  let asked := up_to_exception retrieve unique in
  retrieved_queries (RAGWorker_run retrieve user_query violations_list)
  = map rag_query asked
  /\ NoDup asked
  /\ (forall name, name ∈ asked -> name ∈ clean_violations violations_list)
  /\ (Forall (fun name => raises_on retrieve name = false) unique ->
      asked = unique
      /\ forall name, name ∈ clean_violations violations_list ->
                      name ∈ asked).
Proof.
  cbv zeta. split; [|split; [|split]].
  - unfold RAGWorker_run. cbv zeta.
    destruct (fromkeys (clean_violations violations_list)) as [|v rest] eqn:U;
      [done|].
    rewrite <- send_each_queries.
    destruct (send_each retrieve (v :: rest)) as [o r]. cbn [fst].
    rewrite retrieved_queries_app.
    assert (retrieved_queries
              (match r with
               | Some message => [Respond ("RAG Error: " ++ message)%string]
               | None => []
               end) = []) as -> by (by destruct r).
    by rewrite app_nil_r.
  - apply NoDup_up_to_exception, NoDup_fromkeys.
  - intros name H. apply elem_of_up_to_exception in H.
    by rewrite elem_of_fromkeys in H.
  - intros F.
    assert (up_to_exception retrieve
              (fromkeys (clean_violations violations_list))
            = fromkeys (clean_violations violations_list)) as ->.
    { induction F as [|y l Hy _ IH]; [done|]. cbn [up_to_exception].
      by rewrite Hy, IH. }
    split; [done|]. intros name. by rewrite elem_of_fromkeys.
Qed.

(** X17: a context without a usable alert (every entry is a final
    summary or does not contain "VIOLATION:"; the empty context
    included) gets the single response "No violations available for
    RAG." and the retriever is not called. *)
Theorem no_alert_no_retrieval user_query violations_list :
  Forall (fun v => contains "FINAL SUMMARY" v = true
                   \/ contains "VIOLATION:" v = false) violations_list ->
  RAGWorker_run retrieve user_query violations_list
  = [Respond "No violations available for RAG."].
Proof.
  intros F. unfold RAGWorker_run. cbv zeta.
  assert (clean_violations violations_list = []) as ->; [|done].
  rewrite clean_violations_entries.
  induction F as [|v l Hv _ IH]; [done|].
  cbn [map concat]. rewrite IH, app_nil_r. unfold clean_entry.
  destruct Hv as [Hv|Hv]; rewrite Hv; [done|].
  by destruct (contains "FINAL SUMMARY" v).
Qed.





End RAGWorkerProperties.

Lemma one_query_per_violation_witness :
  retrieved_queries
    (RAGWorker_run mask_retriever ""
       ["[12:00:00] VIOLATION: NO-Mask"; "[12:00:01] VIOLATION: NO-Mask"])
  = ["Worker not wearing Mask. PPE safety guidelines."].
Proof.
  exact (proj1 (one_query_per_violation mask_retriever ""
                  ["[12:00:00] VIOLATION: NO-Mask";
                   "[12:00:01] VIOLATION: NO-Mask"])).
Defined.

Lemma no_alert_no_retrieval_witness :
  Forall (fun v => contains "FINAL SUMMARY" v = true
                   \/ contains "VIOLATION:" v = false)
    [final_summary ["NO-Mask"]; "camera ready"]
  /\ RAGWorker_run mask_retriever ""
       [final_summary ["NO-Mask"]; "camera ready"]
     = [Respond "No violations available for RAG."].
Proof.
  assert (Forall (fun v => contains "FINAL SUMMARY" v = true
                           \/ contains "VIOLATION:" v = false)
            [final_summary ["NO-Mask"]; "camera ready"]) as F.
  { apply Forall_cons. split; [left; reflexivity|].
    apply Forall_cons. split; [right; reflexivity|]. constructor. }
  split; [exact F|]. exact (no_alert_no_retrieval mask_retriever "" _ F).
Defined.


(** * From the thread to the retriever *)

(** ** The page *)










(** ** The alerts of a session *)














(** * Properties of the model loader *)

Lemma string_app_cons c (a b : string) :
  (String c a ++ b)%string = String c (a ++ b)%string.
Proof. reflexivity. Qed.

Lemma has_slash_app a b : has_slash (a ++ b) = has_slash a || has_slash b.
Proof.
  induction a as [|c a IH]; [done|].
  rewrite string_app_cons. cbn [has_slash]. by rewrite IH, orb_assoc.
Qed.

Lemma all_slashes_app a b :
  all_slashes (a ++ b) = all_slashes a && all_slashes b.
Proof.
  induction a as [|c a IH]; [done|].
  rewrite string_app_cons. cbn [all_slashes]. by rewrite IH, andb_assoc.
Qed.

Lemma up_to_last_slash_none name :
  has_slash name = false -> up_to_last_slash name = "".
Proof. destruct name as [|c name]; [done|]. cbn [up_to_last_slash]. by intros ->. Qed.

(** The head of [a/name], for a [name] without slash, is [a/]. *)
Lemma up_to_last_slash_app a name :
  has_slash name = false ->
  up_to_last_slash (a ++ String "/" name) = (a ++ "/")%string.
Proof.
  intros Hn. induction a as [|c a IH].
  - change ("" ++ String "/" name)%string with (String "/" name).
    cbn [up_to_last_slash has_slash is_slash Ascii.eqb Bool.eqb orb].
    by rewrite up_to_last_slash_none.
  - rewrite !string_app_cons. cbn [up_to_last_slash].
    replace (has_slash (String c (a ++ String "/" name))) with true.
    + by rewrite IH.
    + cbn [has_slash]. rewrite has_slash_app. cbn [has_slash is_slash].
      cbn. by rewrite !orb_true_r.
Qed.

Lemma not_all_slashes r :
  r <> "" -> ends_with_slash r = false -> all_slashes r = false.
Proof.
  induction r as [|c r IH]; [done|]. intros _.
  destruct r as [|c' r].
  - cbn. by intros ->.
  - change (ends_with_slash (String c (String c' r)))
      with (ends_with_slash (String c' r)).
    intros H.
    change (all_slashes (String c (String c' r)))
      with (is_slash c && all_slashes (String c' r)).
    rewrite IH by done. by rewrite andb_false_r.
Qed.

Lemma rstrip_slashes_one r :
  ends_with_slash r = false -> rstrip_slashes (r ++ "/") = r.
Proof.
  induction r as [|c r IH]; [done|].
  intros H. rewrite string_app_cons. cbn [rstrip_slashes].
  replace (all_slashes (String c (r ++ "/"))) with false; cycle 1.
  { change (String c (r ++ "/"))%string with (String c r ++ "/")%string.
    rewrite all_slashes_app, (not_all_slashes (String c r)); done. }
  f_equal. destruct r as [|c' r].
  - cbn in H. cbn. change (is_slash c) with (Ascii.eqb c "/") in H. done.
  - by apply IH.
Qed.

(** The directory of [x/name], for a [name] without slash and an [x] that
    is not empty and does not end in a slash, is [x]. *)
Lemma dirname_file x name :
  x <> "" -> ends_with_slash x = false -> has_slash name = false ->
  dirname (x ++ String "/" name) = x.
Proof.
  intros Hx He Hn. unfold dirname.
  rewrite up_to_last_slash_app by done.
  assert (all_slashes (x ++ "/") = false) as A
    by (by rewrite all_slashes_app, not_all_slashes).
  rewrite A.
  replace (String.eqb (x ++ "/") "") with false; cycle 1.
  { symmetry. apply String.eqb_neq. intros E. by rewrite E in A. }
  by apply rstrip_slashes_one.
Qed.

Lemma ends_with_slash_app a d :
  d <> "" -> ends_with_slash (a ++ d) = ends_with_slash d.
Proof.
  intros Hd. induction a as [|c a IH]; [done|].
  rewrite string_app_cons.
  destruct (a ++ d)%string as [|c' s] eqn:E.
  - destruct a; [|done]. by destruct d.
  - exact IH.
Qed.

(** X22: for the module at [root/src/object_detection.py] (a [root] not
    ending in a slash, the file system root included), the model is looked
    for in [root/models]: [best.pt] is loaded when it exists, [yolov8n.pt]
    when only that exists, and [FileNotFoundError] is raised when neither
    does. *)
Theorem model_loaded_from_models_folder root exists_ :
  ends_with_slash root = false ->
  let custom := (root ++ "/models/best.pt")%string in
  let fallback := (root ++ "/models/yolov8n.pt")%string in
  (load_yolo_model (root ++ "/src/object_detection.py") exists_).2
  = if exists_ custom then YOLO custom
    else if exists_ fallback then YOLO fallback
         else FileNotFoundError "No model file found in models folder!".
Proof.
  intros Hr custom fallback. unfold load_yolo_model. cbv zeta.
  assert (dirname (root ++ "/src/object_detection.py")
          = (root ++ "/src")%string) as ->.
  { change (root ++ "/src/object_detection.py")%string
      with (root ++ ("/src" ++ String "/" "object_detection.py"))%string.
    rewrite <- string_app_assoc. apply dirname_file; [|..|done].
    - by destruct root.
    - by rewrite ends_with_slash_app. }
  assert (join_path (dirname (root ++ "/src")) "models"
          = (root ++ "/models")%string) as ->.
  { destruct root as [|c root]; [done|].
    change (String c root ++ "/src")%string
      with (String c root ++ String "/" "src")%string.
    rewrite dirname_file by done.
    unfold join_path. cbn [String.prefix].
    change (String.eqb (String c root) "") with false.
    rewrite Hr. cbn [orb].
    destruct (ascii_dec "/" "m"); [discriminate|done]. }
  assert (forall name,
            String.prefix "/" name = false ->
            join_path (root ++ "/models") name
            = (root ++ "/models/" ++ name)%string) as J.
  { intros name Hp. unfold join_path. rewrite Hp.
    rewrite ends_with_slash_app by done.
    replace (String.eqb (root ++ "/models") "") with false; cycle 1.
    { symmetry. apply String.eqb_neq. by destruct root. }
    cbn [orb ends_with_slash is_slash]. cbn.
    by rewrite string_app_assoc. }
  rewrite !J by done.
  change (root ++ "/models/" ++ "best.pt")%string with custom.
  change (root ++ "/models/" ++ "yolov8n.pt")%string with fallback.
  by destruct (exists_ custom); [|destruct (exists_ fallback)].
Qed.

Lemma model_loaded_from_models_folder_witness :
  ends_with_slash "/home/pi/ppe" = false
  /\ (load_yolo_model "/home/pi/ppe/src/object_detection.py"
        (fun p => String.eqb p "/home/pi/ppe/models/yolov8n.pt")).2
     = YOLO "/home/pi/ppe/models/yolov8n.pt".
Proof.
  split; [reflexivity|].
  exact (model_loaded_from_models_folder "/home/pi/ppe"
           (fun p => String.eqb p "/home/pi/ppe/models/yolov8n.pt")
           eq_refl).
Defined.
